(** * lrs-core/api.js: start-up sequencing and the authorization middleware

    A shallow embedding of [src/lib/lrs-core/api.js].  The JavaScript
    values the file handles are modelled as an inductive type, strings as
    sequences of UTF-16 code units, the request's signed cookies as a
    finite map, and the effects of the handlers (calls to [next], to the
    users API, writes to the response, the start-up calls) by explicit
    state passing in a small state-and-exception monad. *)

From Stdlib Require Import ZArith NArith List String Ascii Lia.
From Stdlib Require Import Floats.SpecFloat.
From stdpp Require Import base option list gmap.

Set Default Proof Using "Type".
Local Open Scope N_scope.

(** ** JavaScript strings *)

(** A string is its sequence of UTF-16 code units (numbers below 2^16). *)
Abbreviation jsstring := (list N) (only parsing).

(** The string written with the ASCII literal [s]. *)
Definition js (s : string) : jsstring :=
  map N_of_ascii (list_ascii_of_string s).

(** ** JavaScript values *)

#[warnings="-register-all"]
Inductive value : Type :=
| VUndefined
| VNull
| VBoolean (b : bool)
| VNumber (x : spec_float)
| VString (s : jsstring)
| VObject (props : list (jsstring * value)).

(** [ToBoolean]: what [if (v)], [!v] and [v || w] test. *)
Definition ToBoolean (v : value) : bool :=
  match v with
  | VUndefined | VNull => false
  | VBoolean b => b
  | VNumber (S754_zero _) | VNumber S754_nan => false
  | VNumber _ => true
  | VString [] => false
  | VString (_ :: _) => true
  | VObject _ => true
  end.

(** [o[k]] on the own properties of a plain object. *)
Fixpoint get_prop (props : list (jsstring * value)) (k : jsstring) : value :=
  match props with
  | [] => VUndefined
  | (k', v) :: rest => if decide (k' = k) then v else get_prop rest k
  end.

(** [o[k] = v] on the own properties of a plain object. *)
Fixpoint put_prop (props : list (jsstring * value)) (k : jsstring) (v : value)
  : list (jsstring * value) :=
  match props with
  | [] => [(k, v)]
  | (k', v') :: rest =>
      if decide (k' = k) then (k, v) :: rest else (k', v') :: put_prop rest k v
  end.

(** [v.k = x] in sloppy mode (the file has no strict-mode directive): the
    property is written on an object, the assignment is dropped on a
    primitive. [undefined] and [null] raise a TypeError; the middleware only
    assigns after [req.ctx || {}], which is truthy. *)
Definition set_member (v : value) (k : jsstring) (x : value) : value :=
  match v with
  | VObject props => VObject (put_prop props k x)
  | _ => v
  end.

Definition member (v : value) (k : jsstring) : value :=
  match v with
  | VObject props => get_prop props k
  | _ => VUndefined
  end.

(** ** Exceptions and the state-and-exception monad *)

Inductive exn : Type :=
| URIError
| Thrown (v : value).

Inductive result (A : Type) : Type :=
| Ok (a : A)
| Throw (e : exn).
Arguments Ok {A} a.
Arguments Throw {A} e.

Definition result_bind {A B} (r : result A) (k : A -> result B) : result B :=
  match r with
  | Ok a => k a
  | Throw e => Throw e
  end.

(** A computation over a state [S]: it returns or throws, and leaves the
    state it reached. *)
Definition M (S A : Type) : Type := S -> result A * S.

Definition ret {S A} (a : A) : M S A := fun s => (Ok a, s).

Definition bind {S A B} (m : M S A) (k : A -> M S B) : M S B :=
  fun s =>
    match m s with
    | (Ok a, s') => k a s'
    | (Throw e, s') => (Throw e, s')
    end.

Definition throw {S A} (e : exn) : M S A := fun s => (Throw e, s).

Definition lift {S A} (r : result A) : M S A := fun s => (r, s).

Definition gets {S A} (f : S -> A) : M S A := fun s => (Ok (f s), s).

Definition modify {S} (f : S -> S) : M S unit := fun s => (Ok tt, f s).

Declare Scope js_scope.
Delimit Scope js_scope with js_m.
Notation "'let!' x ':=' e 'in' k" := (bind e (fun x => k))
  (at level 10, x name, e at level 100, k at level 200) : js_scope.
Notation "e1 '>>' e2" := (bind e1 (fun _ => e2))
  (at level 100, e2 at level 200, right associativity) : js_scope.
Notation "'try!' x ':=' e 'in' k" := (result_bind e (fun x => k))
  (at level 10, x name, e at level 100, k at level 200) : js_scope.
Local Open Scope js_scope.

(** ** The URI built-ins (ECMA-262, 19.2.6) *)

Module URI.

Definition between (lo c hi : N) : bool := (lo <=? c) && (c <=? hi).

Definition hexDigit (c : N) : option N :=
  if between 48 c 57 then Some (c - 48)
  else if between 65 c 70 then Some (c - 55)
  else if between 97 c 102 then Some (c - 87)
  else None.

(** [ParseHexOctet]: the two code units after a [%], and what follows. *)
Definition ParseHexOctet (s : jsstring) : option (N * jsstring) :=
  match s with
  | h :: l :: rest =>
      match hexDigit h, hexDigit l with
      | Some a, Some b => Some (16 * a + b, rest)
      | _, _ => None
      end
  | _ => None
  end.

(** The [n] escapes [%XX] that continue a multi-byte sequence. *)
Fixpoint continuation (n : nat) (s : jsstring) : option (list N) :=
  match n with
  | O => Some []
  | S n' =>
      match s with
      | 37 :: s' =>
          match ParseHexOctet s' with
          | Some (b, rest) =>
              match continuation n' rest with
              | Some bs => Some (b :: bs)
              | None => None
              end
          | None => None
          end
      | _ => None
      end
  end.

Definition UTF16EncodeCodePoint (cp : N) : jsstring :=
  if cp <=? 65535 then [cp]
  else [(cp - 65536) / 1024 + 55296; (cp - 65536) mod 1024 + 56320].

(** The code point of a well-formed UTF-8 sequence of two to four octets:
    continuation octets in 80..BF, no overlong form, no surrogate, at most
    10FFFF. *)
Definition utf8_decode (octets : list N) : option N :=
  let cont := forallb (fun b => between 128 b 191) in
  let low b := b mod 64 in
  match octets with
  | [b0; b1] =>
      let v := (b0 mod 32) * 64 + low b1 in
      if cont [b1] && (128 <=? v) then Some v else None
  | [b0; b1; b2] =>
      let v := (b0 mod 16) * 4096 + low b1 * 64 + low b2 in
      if cont [b1; b2] && (2048 <=? v) && negb (between 55296 v 57343)
      then Some v else None
  | [b0; b1; b2; b3] =>
      let v := (b0 mod 8) * 262144 + low b1 * 4096 + low b2 * 64 + low b3 in
      if cont [b1; b2; b3] && between 65536 v 1114111 then Some v else None
  | _ => None
  end.

(** The number of leading 1 bits of an octet, when it starts a sequence. *)
Definition sequence_length (b : N) : option nat :=
  if between 192 b 223 then Some 2%nat
  else if between 224 b 239 then Some 3%nat
  else if between 240 b 247 then Some 4%nat
  else None.

(** One escape, read after its [%]: the decoded code units and the number
    of code units of the input it used after the [%]. *)
Definition decode_escape (s : jsstring) : result (jsstring * nat) :=
  match ParseHexOctet s with
  | None => Throw URIError
  | Some (b, rest) =>
      if b <? 128 then Ok ([b], 2%nat)
      else
        match sequence_length b with
        | None => Throw URIError
        | Some n =>
            match continuation (n - 1) rest with
            | None => Throw URIError
            | Some bs =>
                match utf8_decode (b :: bs) with
                | None => Throw URIError
                | Some v =>
                    Ok (UTF16EncodeCodePoint v, (2 + 3 * (n - 1))%nat)
                end
            end
        end
  end.

(** [Decode] with an empty set of preserved escapes. [skip] code units of
    the input belong to the escape just decoded. *)
Fixpoint Decode (skip : nat) (s : jsstring) : result jsstring :=
  match s with
  | [] => Ok []
  | c :: s' =>
      match skip with
      | S k => Decode k s'
      | O =>
          if c =? 37 then
            try! d := decode_escape s' in
            try! r := Decode (snd d) s' in
            Ok (fst d ++ r)
          else
            try! r := Decode O s' in
            Ok (c :: r)
      end
  end.

Definition decodeURIComponent (s : jsstring) : result jsstring :=
  Decode O s.

(** [A-Z a-z 0-9 - _ . ! ~ * ' ( )] *)
Definition unescaped (c : N) : bool :=
  between 65 c 90 || between 97 c 122 || between 48 c 57
  || existsb (N.eqb c) [45; 95; 46; 33; 126; 42; 39; 40; 41].

Definition utf8_encode (cp : N) : list N :=
  if cp <? 128 then [cp]
  else if cp <? 2048 then [192 + cp / 64; 128 + cp mod 64]
  else if cp <? 65536 then
    [224 + cp / 4096; 128 + (cp / 64) mod 64; 128 + cp mod 64]
  else
    [240 + cp / 262144; 128 + (cp / 4096) mod 64;
     128 + (cp / 64) mod 64; 128 + cp mod 64].

Definition hexUpper (d : N) : N := if d <? 10 then 48 + d else 55 + d.

Definition percent (octets : list N) : jsstring :=
  flat_map (fun b => [37; hexUpper (b / 16); hexUpper (b mod 16)]) octets.

(** [Encode] with the unescaped set of [encodeURIComponent]. *)
Fixpoint Encode (s : jsstring) : result jsstring :=
  match s with
  | [] => Ok []
  | c :: s' =>
      if unescaped c then
        try! r := Encode s' in Ok (c :: r)
      else if between 55296 c 56319 then
        match s' with
        | c2 :: s'' =>
            if between 56320 c2 57343 then
              try! r := Encode s'' in
              Ok (percent (utf8_encode
                    ((c - 55296) * 1024 + (c2 - 56320) + 65536)) ++ r)
            else Throw URIError
        | [] => Throw URIError
        end
      else if between 56320 c 57343 then Throw URIError
      else
        try! r := Encode s' in Ok (percent (utf8_encode c) ++ r)
  end.

Definition encodeURIComponent (s : jsstring) : result jsstring :=
  Encode s.

End URI.

(** [String.prototype.split] with a one-unit separator. *)
Fixpoint split (sep : N) (s : jsstring) : list jsstring :=
  match s with
  | [] => [[]]
  | c :: s' =>
      if c =? sep then [] :: split sep s'
      else
        match split sep s' with
        | seg :: segs => (c :: seg) :: segs
        | [] => [[c]]
        end
  end.

(** [ToString] of an array element that may be missing. *)
Definition ToString (x : option jsstring) : jsstring :=
  match x with
  | Some s => s
  | None => js "undefined"
  end.

(** ** The request, the response and the calls a handler makes *)

(** The fields of the Express request the middleware reads or writes.
    [ctx] is [VUndefined] on a request that carries no context;
    [signedCookies] is the dictionary cookie-parser leaves on the request,
    [signedCookies req !! name = None] when no signed cookie has that
    name. *)
Record request : Type := Request {
  baseUrl : jsstring;
  signedCookies : gmap jsstring value;
  ctx : value;
}.

(** The response: its status code and the body handed to [send], if any. *)
Record response : Type := Response {
  statusCode : Z;
  body : option jsstring;
}.

Inductive call : Type :=
| ReadSignedCookie (name : jsstring)   (* req.signedCookies[name] *)
| GetUser (userId : value)             (* UsersAPI.getUser(userId, callback) *)
| Next (err : option value).           (* next() or next(err) *)

(** One request in flight: the request and response objects the handlers
    share, and the calls made so far, oldest first. *)
Record exchange : Type := Exchange {
  req : request;
  res : response;
  calls : list call;
}.

Definition record (c : call) : M exchange unit :=
  modify (fun x => Exchange (req x) (res x) (calls x ++ [c])).

Definition next (err : option value) : M exchange unit := record (Next err).

Definition set_ctx (v : value) : M exchange unit :=
  modify (fun x =>
    Exchange (Request (baseUrl (req x)) (signedCookies (req x)) v)
             (res x) (calls x)).

(** [res.status(code)] *)
Definition res_status (code : Z) : M exchange unit :=
  modify (fun x => Exchange (req x) (Response code (body (res x))) (calls x)).

(** [res.send(text)] *)
Definition res_send (text : jsstring) : M exchange unit :=
  modify (fun x =>
    Exchange (req x) (Response (statusCode (res x)) (Some text)) (calls x)).

(** [req.signedCookies[name]] *)
Definition read_signedCookie (name : jsstring) : M exchange value :=
  record (ReadSignedCookie name) >>
  let! cookies := gets (fun x => signedCookies (req x)) in
  ret (default VUndefined (cookies !! name)).

(** ** The authorization middleware *)

(** Lines 127 to 132: the name of the cookie of the domain and course the
    URL names. [47] is the code unit of [/]. *)
Definition cookieName (baseUrl : jsstring) : result jsstring :=
  try! apiDomain :=
    URI.decodeURIComponent (ToString (split 47 baseUrl !! 2%nat)) in
  try! courseId :=
    URI.decodeURIComponent (ToString (split 47 baseUrl !! 3%nat)) in
  URI.encodeURIComponent (apiDomain ++ js "_" ++ courseId).

(** What the handler leaves behind when it returns: nothing, or the callback
    it handed to [UsersAPI.getUser] for [userId]. *)
Inductive outstanding : Type :=
| Nothing
| GetUserCallback (userId : value).

(** The function handed to [apiRouter.use]. *)
Definition authorizationMiddleware : M exchange outstanding :=
  let! c := gets (fun x => ctx (req x)) in
  if ToBoolean c then
    next None >> ret Nothing
  else
    let! url := gets (fun x => baseUrl (req x)) in
    let! cookieName := lift (cookieName url) in
    let! userId := read_signedCookie cookieName in
    if negb (ToBoolean userId) then
      res_status 401 >>
      res_send (js "Incorrect cookie information present") >>
      ret Nothing
    else
      record (GetUser userId) >> ret (GetUserCallback userId).

(** The callback handed to [UsersAPI.getUser] (lines 141 to 152). *)
Definition getUser_callback (err user : value) : M exchange unit :=
  if ToBoolean err then
    next (Some err)
  else
    let! c := gets (fun x => ctx (req x)) in
    set_ctx (if ToBoolean c then c else VObject []) >>
    let! c := gets (fun x => ctx (req x)) in
    set_ctx (set_member c (js "user") user) >>
    next None.

(** ** Start-up *)

(** What an asynchronous collaborator does with the callback it is given. *)
Inductive async : Type :=
| CallsBack (args : list value)
| NeverCallsBack
| Raises (e : value).

(** The collaborators of start-up, none of which is part of this file. *)
Record Env : Type := {
  DB_init : async;
  Modules_init : async;
  Modules_getAvailableModules : list jsstring;
  dirname : jsstring;
  path_join : list jsstring -> jsstring;
  fs_existsSync : jsstring -> bool;
  (** the exception loading a file raises, if any *)
  require_file : jsstring -> option value;
}.

Inductive step : Type :=
| RequireGlobals
| OnUncaughtException
| DBInit
| ModulesInit
| SetUpServer
| NewRouter
| RouterUseAuthorization
| AppUse (mount : jsstring)
| GetAvailableModules
| ExistsSync (file : jsstring)
| LogDebug (module : jsstring)
| Require (file : jsstring)
| LogInfo (message : jsstring)
| Callback.

Definition emit (e : step) : M (list step) unit :=
  modify (fun log => log ++ [e]).

(** Calling an asynchronous collaborator with [callback]. *)
Definition call_async {S} (how : async) (callback : list value -> M S unit)
  : M S unit :=
  match how with
  | CallsBack args => callback args
  | NeverCallsBack => ret tt
  | Raises e => throw (Thrown e)
  end.

(** [_.each] over an array, with a callback that returns [undefined]. *)
Fixpoint each {S A} (l : list A) (f : A -> M S unit) : M S unit :=
  match l with
  | [] => ret tt
  | a :: l' => f a >> each l' f
  end.

Definition restFile (env : Env) (module : jsstring) : jsstring :=
  path_join env [dirname env; js ".."; module; js "/rest.js"].

(** The body of the loop of lines 92 to 98. *)
Definition register_rest (env : Env) (module : jsstring)
  : M (list step) unit :=
  let restFile := restFile env module in
  emit (ExistsSync restFile) >>
  if fs_existsSync env restFile then
    emit (LogDebug module) >>
    emit (Require restFile) >>
    match require_file env restFile with
    | Some e => throw (Thrown e)
    | None => ret tt
    end
  else ret tt.

Definition initializeAuthorizationMiddleware : M (list step) unit :=
  emit RouterUseAuthorization.

Definition initializeServer (env : Env) : M (list step) unit :=
  emit SetUpServer >>
  emit NewRouter >>
  initializeAuthorizationMiddleware >>
  emit (AppUse (js "/api/:apidomain/:course")) >>
  emit GetAvailableModules >>
  each (Modules_getAvailableModules env) (register_rest env) >>
  emit (LogInfo (js "Finished initializing REST APIs")).

Definition init (env : Env) : M (list step) unit :=
  emit RequireGlobals >>
  emit OnUncaughtException >>
  emit DBInit >>
  call_async (DB_init env) (fun _ =>
    emit ModulesInit >>
    call_async (Modules_init env) (fun _ =>
      initializeServer env >>
      emit Callback)).

Arguments js : simpl never.

(** ** Sample requests *)

Definition fresh_response : response := Response 200 None.

(** A request on the path of the spec's scenario, with its cookie. *)
Definition launched : exchange :=
  Exchange
    (Request (js "/api/ucberkeley.canvas.com/21312")
             {[ js "ucberkeley.canvas.com_21312" := VString (js "42") ]}
             VUndefined)
    fresh_response [].

(** A request on a path without domain and course, with an unrelated
    cookie. *)
Definition off_scheme : exchange :=
  Exchange
    (Request (js "/api")
             {[ js "ucberkeley.canvas.com_21312" := VString (js "42") ]}
             VUndefined)
    fresh_response [].

(** A request whose cookie of the right name holds the empty string. *)
Definition empty_cookie : exchange :=
  Exchange
    (Request (js "/api/ucberkeley.canvas.com/21312")
             {[ js "ucberkeley.canvas.com_21312" := VString [] ]}
             VUndefined)
    fresh_response [].

(** A request a bookmarklet token has already authorized. *)
Definition preauthorized : exchange :=
  Exchange
    (Request (js "/api/ucberkeley.canvas.com/21312") ∅
             (VObject [(js "user", VString (js "7"))]))
    fresh_response [].

Definition some_user : value :=
  VObject [(js "id", VString (js "42"))].

Definition some_error : value :=
  VObject [(js "code", VNumber (S754_finite false 500 0))].

(** ** Start-up: the steps of route discovery *)

(** The steps [register_rest] takes for one module: the probe, and the
    load when the file exists. *)
Definition probe (env : Env) (module : jsstring) : list step :=
  ExistsSync (restFile env module)
  :: (if fs_existsSync env (restFile env module)
      then [LogDebug module; Require (restFile env module)]
      else []).

(** The steps of a start-up in which every stage succeeds. *)
Definition startup_order (env : Env) : list step :=
  [RequireGlobals; OnUncaughtException; DBInit; ModulesInit; SetUpServer;
   NewRouter; RouterUseAuthorization; AppUse (js "/api/:apidomain/:course");
   GetAvailableModules]
  ++ flat_map (probe env) (Modules_getAvailableModules env)
  ++ [LogInfo (js "Finished initializing REST APIs"); Callback].

(** No file that exists raises an exception when it is loaded. *)
Definition loads_cleanly (env : Env) (modules : list jsstring) : Prop :=
  forall m, m ∈ modules ->
    fs_existsSync env (restFile env m) = true ->
    require_file env (restFile env m) = None.

(** ** Order of steps *)

(** Every occurrence of [b] in [log] comes after an occurrence of [a]. *)
Definition precedes (a b : step) (log : list step) : Prop :=
  forall before after, log = before ++ b :: after -> a ∈ before.

(** ** POSIX [path.join], for the sample environments *)

Module Path.

(** The segments of a path with [.] and empty segments dropped and [..]
    resolved; [stack] holds the segments kept so far, last first. *)
Fixpoint normalizeSegments (allowAboveRoot : bool) (stack segs : list jsstring)
  : list jsstring :=
  match segs with
  | [] => rev stack
  | seg :: segs' =>
      if decide (seg = [] \/ seg = js ".") then
        normalizeSegments allowAboveRoot stack segs'
      else if decide (seg = js "..") then
        match stack with
        | top :: below =>
            if decide (top = js "..") then
              normalizeSegments allowAboveRoot
                (if allowAboveRoot then seg :: stack else stack) segs'
            else normalizeSegments allowAboveRoot below segs'
        | [] =>
            normalizeSegments allowAboveRoot
              (if allowAboveRoot then [seg] else []) segs'
        end
      else normalizeSegments allowAboveRoot (seg :: stack) segs'
  end.

Fixpoint unsplit (segs : list jsstring) : jsstring :=
  match segs with
  | [] => []
  | [seg] => seg
  | seg :: segs' => seg ++ 47 :: unsplit segs'
  end.

Definition normalize (path : jsstring) : jsstring :=
  match path with
  | [] => js "."
  | first :: _ =>
      let isAbsolute := first =? 47 in
      let trailingSeparator := bool_decide (last path = Some 47) in
      let p := unsplit (normalizeSegments (negb isAbsolute) [] (split 47 path)) in
      match p with
      | [] =>
          if isAbsolute then js "/"
          else if trailingSeparator then js "./" else js "."
      | _ =>
          (if isAbsolute then js "/" else [])
          ++ p ++ (if trailingSeparator then js "/" else [])
      end
  end.

Definition join (args : list jsstring) : jsstring :=
  normalize (unsplit (filter (fun a => a <> []) args)).

End Path.

(** ** Sample environments *)

(** An installation with two modules, of which [lrs-users] has a rest.js. *)
Definition installation : Env := {|
  DB_init := CallsBack [];
  Modules_init := CallsBack [];
  Modules_getAvailableModules := [js "lrs-core"; js "lrs-users"];
  dirname := js "/opt/lrs/lib/lrs-core";
  path_join := Path.join;
  fs_existsSync := fun f => bool_decide (f = js "/opt/lrs/lib/lrs-users/rest.js");
  require_file := fun _ => None;
|}.

Definition connection_error : value :=
  VObject [(js "code", VNumber (S754_finite false 500 0));
           (js "msg",
            VString (js "Unable to set up a connection to the database"))].

(** The same installation, with a database that reports an error to the
    callback of [DB.init]. *)
Definition database_down : Env := {|
  DB_init := CallsBack [connection_error];
  Modules_init := Modules_init installation;
  Modules_getAvailableModules := Modules_getAvailableModules installation;
  dirname := dirname installation;
  path_join := path_join installation;
  fs_existsSync := fs_existsSync installation;
  require_file := require_file installation;
|}.

(** ** Further samples and predicates *)

(** A request whose domain segment is a lone percent sign. *)
Definition malformed : exchange :=
  Exchange
    (Request (js "/api/%/21312")
             {[ js "ucberkeley.canvas.com_21312" := VString (js "42") ]}
             VUndefined)
    fresh_response [].

(** A request whose context another handler has filled in the meantime. *)
Definition with_tenant : exchange :=
  Exchange
    (Request (js "/api/ucberkeley.canvas.com/21312") ∅
             (VObject [(js "tenant", VString (js "ucberkeley"))]))
    fresh_response [].

(** The installation, with a rest.js of [lrs-users] that throws when it is
    loaded. *)
Definition broken_module : Env := {|
  DB_init := DB_init installation;
  Modules_init := Modules_init installation;
  Modules_getAvailableModules := [js "lrs-users"; js "lrs-core"];
  dirname := dirname installation;
  path_join := path_join installation;
  fs_existsSync := fs_existsSync installation;
  require_file := fun _ => Some (VString (js "SyntaxError"));
|}.


(** The strings of code units, which are below 2^16. *)
Definition code_units (s : jsstring) : Prop := Forall (fun c => c < 65536) s.

(** A Unicode scalar value: a code point that is not a surrogate. *)
Definition scalar (cp : N) : Prop :=
  cp <= 1114111 /\ ~ (55296 <= cp <= 57343).

(** Membership of a step in a list that is written out. *)
Ltac step_listed :=
  rewrite !elem_of_cons; repeat first [left; reflexivity | right].
Ltac step_not_listed :=
  rewrite !not_elem_of_cons;
  repeat split; (discriminate || apply not_elem_of_nil).

(** * Proofs *)

(** ** The built-ins on samples *)

Example decode_euro :
  URI.decodeURIComponent (js "a%E2%82%ACb%2Fc") = Ok [97; 8364; 98; 47; 99].
Proof. reflexivity. Qed.

Example decode_bad : URI.decodeURIComponent (js "%E2%82") = Throw URIError.
Proof. reflexivity. Qed.

Example encode_euro :
  URI.encodeURIComponent [97; 8364; 47; 95] = Ok (js "a%E2%82%AC%2F_").
Proof. reflexivity. Qed.

Example join_rest :
  restFile installation (js "lrs-users") = js "/opt/lrs/lib/lrs-users/rest.js"
  /\ Path.join [js "a"; js ""; js "../.."; js "b/"] = js "../b/"
  /\ Path.join [js "/a"; js ".."; js ".."] = js "/".
Proof. repeat split; vm_compute; reflexivity. Qed.

(** ** Facts about [split] *)

Section Split.

Variable sep : N.

Lemma split_without_separator (s : jsstring) :
  sep ∉ s -> split sep s = [s].
Proof.
  induction s as [|c s IH]; intros Hs; [reflexivity|].
  apply not_elem_of_cons in Hs as [Hc Hs]. simpl.
  destruct (N.eqb_spec c sep) as [->|_]; [contradiction|].
  now rewrite (IH Hs).
Qed.

Lemma split_at_separator (a b : jsstring) :
  sep ∉ a -> split sep (a ++ sep :: b) = a :: split sep b.
Proof.
  induction a as [|c a IH]; intros Ha; simpl.
  - now rewrite N.eqb_refl.
  - apply not_elem_of_cons in Ha as [Hc Ha].
    destruct (N.eqb_spec c sep) as [->|_]; [contradiction|].
    now rewrite (IH Ha).
Qed.

(** The segment before the end of the string or before the next
    separator. *)
Lemma split_first_segment (c rest : jsstring) :
  sep ∉ c -> rest = [] \/ (exists r, rest = sep :: r) ->
  exists segs, split sep (c ++ rest) = c :: segs.
Proof.
  intros Hc [->|[r ->]].
  - rewrite app_nil_r, split_without_separator by assumption. now exists [].
  - rewrite split_at_separator by assumption. now eexists.
Qed.

End Split.

(** The segments of a URL [/api/d/c] or [/api/d/c/...]. *)
Lemma split_api_path (d c rest : jsstring) :
  47 ∉ d -> 47 ∉ c -> rest = [] \/ (exists r, rest = 47 :: r) ->
  exists segs,
    split 47 (js "/api/" ++ d ++ 47 :: c ++ rest)
    = [] :: js "api" :: d :: c :: segs.
Proof.
  intros Hd Hc Hrest.
  destruct (split_first_segment 47 c rest Hc Hrest) as [segs Hsegs].
  exists segs.
  change (js "/api/" ++ d ++ 47 :: c ++ rest)
    with ([] ++ 47 :: (js "api" ++ 47 :: (d ++ 47 :: c ++ rest))).
  rewrite split_at_separator by apply not_elem_of_nil.
  rewrite split_at_separator by (now apply (bool_decide_unpack _)).
  rewrite split_at_separator by assumption.
  now rewrite Hsegs.
Qed.

(** ** The middleware on a request without a context *)

(** Once the cookie name is computed, the handler either answers 401 or
    hands the cookie's value to the users API. *)
Lemma middleware_without_context (x : exchange) (k : jsstring) :
  ToBoolean (ctx (req x)) = false ->
  cookieName (baseUrl (req x)) = Ok k ->
  authorizationMiddleware x =
    let userId := default VUndefined (signedCookies (req x) !! k) in
    if ToBoolean userId then
      (Ok (GetUserCallback userId),
       Exchange (req x) (res x)
                (calls x ++ [ReadSignedCookie k; GetUser userId]))
    else
      (Ok Nothing,
       Exchange (req x)
                (Response 401 (Some (js "Incorrect cookie information present")))
                (calls x ++ [ReadSignedCookie k])).
Proof.
  intros Hctx Hk.
  unfold authorizationMiddleware, bind, gets, lift. cbv beta.
  rewrite Hctx, Hk.
  unfold read_signedCookie, record, res_status, res_send, bind, gets,
    modify, ret.
  cbn. destruct (ToBoolean (default _ _)); cbn; [|reflexivity].
  now rewrite <- app_assoc.
Qed.

(** ** The claims about the middleware *)

(** C1. A request without a context for which no signed cookie has the
    computed name is answered with status 401 and the body
    "Incorrect cookie information present"; the only call the handler
    makes is the cookie lookup, so [next] is not invoked. The path need not
    name a domain and a course: the name is computed from whatever
    segments it has. *)
Theorem missing_cookie_is_unauthorized (x : exchange) (k : jsstring) :
  ToBoolean (ctx (req x)) = false ->
  cookieName (baseUrl (req x)) = Ok k ->
  signedCookies (req x) !! k = None ->
  authorizationMiddleware x =
    (Ok Nothing,
     Exchange (req x)
              (Response 401 (Some (js "Incorrect cookie information present")))
              (calls x ++ [ReadSignedCookie k])).
Proof.
  intros Hctx Hk Hcookie.
  rewrite (middleware_without_context x k Hctx Hk), Hcookie.
  reflexivity.
Qed.

Lemma missing_cookie_is_unauthorized_witness :
  authorizationMiddleware off_scheme =
    (Ok Nothing,
     Exchange (req off_scheme)
              (Response 401 (Some (js "Incorrect cookie information present")))
              [ReadSignedCookie (js "undefined_undefined")]).
Proof.
  apply (missing_cookie_is_unauthorized off_scheme (js "undefined_undefined"));
    vm_compute; reflexivity.
Defined.

(** C2. A request without a context whose cookie holds a user id: the
    handler hands the id to the users API; when the API calls back without
    an error, the callback sets [req.ctx.user] to the user it is given and
    then calls [next()]. *)
Theorem resolved_user_is_attached
  (x : exchange) (k : jsstring) (userId err user : value) :
  ToBoolean (ctx (req x)) = false ->
  cookieName (baseUrl (req x)) = Ok k ->
  signedCookies (req x) !! k = Some userId ->
  ToBoolean userId = true ->
  ToBoolean err = false ->
  exists x1 x2,
    authorizationMiddleware x = (Ok (GetUserCallback userId), x1)
    /\ getUser_callback err user x1 = (Ok tt, x2)
    /\ member (ctx (req x2)) (js "user") = user
    /\ ctx (req x2) = VObject [(js "user", user)]
    /\ baseUrl (req x2) = baseUrl (req x)
    /\ signedCookies (req x2) = signedCookies (req x)
    /\ res x2 = res x
    /\ calls x2 = calls x ++ [ReadSignedCookie k; GetUser userId; Next None].
Proof.
  intros Hctx Hk Hcookie Hid Herr.
  rewrite (middleware_without_context x k Hctx Hk), Hcookie. cbn.
  rewrite Hid. do 2 eexists. split; [reflexivity|].
  unfold getUser_callback. rewrite Herr.
  unfold bind, gets, set_ctx, next, record, modify. cbn.
  rewrite Hctx. cbn. split; [reflexivity|]. cbn.
  rewrite decide_True by reflexivity.
  rewrite <- app_assoc. repeat split; reflexivity.
Qed.

Lemma resolved_user_is_attached_witness :
  exists x1 x2,
    authorizationMiddleware launched
      = (Ok (GetUserCallback (VString (js "42"))), x1)
    /\ getUser_callback VNull some_user x1 = (Ok tt, x2)
    /\ member (ctx (req x2)) (js "user") = some_user
    /\ ctx (req x2) = VObject [(js "user", some_user)]
    /\ baseUrl (req x2) = baseUrl (req launched)
    /\ signedCookies (req x2) = signedCookies (req launched)
    /\ res x2 = res launched
    /\ calls x2 =
         calls launched
         ++ [ReadSignedCookie (js "ucberkeley.canvas.com_21312");
             GetUser (VString (js "42")); Next None].
Proof.
  apply (resolved_user_is_attached launched
           (js "ucberkeley.canvas.com_21312") (VString (js "42")) VNull
           some_user); vm_compute; reflexivity.
Defined.

(** C3. A request without a context whose cookie holds a user id, when the
    users API calls back with an error: the callback calls [next(err)] with
    that error and touches neither the response nor the request, whose
    context stays as it was. *)
Theorem lookup_error_is_passed_on
  (x : exchange) (k : jsstring) (userId err user : value) :
  ToBoolean (ctx (req x)) = false ->
  cookieName (baseUrl (req x)) = Ok k ->
  signedCookies (req x) !! k = Some userId ->
  ToBoolean userId = true ->
  ToBoolean err = true ->
  exists x1 x2,
    authorizationMiddleware x = (Ok (GetUserCallback userId), x1)
    /\ getUser_callback err user x1 = (Ok tt, x2)
    /\ req x2 = req x
    /\ res x2 = res x
    /\ calls x2 =
         calls x ++ [ReadSignedCookie k; GetUser userId; Next (Some err)].
Proof.
  intros Hctx Hk Hcookie Hid Herr.
  rewrite (middleware_without_context x k Hctx Hk), Hcookie. cbn.
  rewrite Hid. do 2 eexists. split; [reflexivity|].
  unfold getUser_callback. rewrite Herr.
  unfold next, record, modify. cbn.
  rewrite <- app_assoc. repeat split; reflexivity.
Qed.

Lemma lookup_error_is_passed_on_witness :
  exists x1 x2,
    authorizationMiddleware launched
      = (Ok (GetUserCallback (VString (js "42"))), x1)
    /\ getUser_callback some_error VUndefined x1 = (Ok tt, x2)
    /\ req x2 = req launched
    /\ res x2 = res launched
    /\ calls x2 =
         calls launched
         ++ [ReadSignedCookie (js "ucberkeley.canvas.com_21312");
             GetUser (VString (js "42")); Next (Some some_error)].
Proof.
  apply (lookup_error_is_passed_on launched
           (js "ucberkeley.canvas.com_21312") (VString (js "42")) some_error
           VUndefined); vm_compute; reflexivity.
Defined.

(** C4. On a URL [/api/d/c] or [/api/d/c/...] the cookie name is
    [encodeURIComponent(decodeURIComponent(d) + "_" + decodeURIComponent(c))]
    (an exception of either side included), and that name is the one the
    handler looks up. For [ucberkeley.canvas.com] and [21312] it is the
    encoding of "ucberkeley.canvas.com_21312". *)
Theorem cookie_name_of_api_path :
  (forall (x : exchange) (d c rest : jsstring),
     ToBoolean (ctx (req x)) = false ->
     baseUrl (req x) = js "/api/" ++ d ++ 47 :: c ++ rest ->
     47 ∉ d -> 47 ∉ c -> rest = [] \/ (exists r, rest = 47 :: r) ->
     cookieName (baseUrl (req x)) =
       (try! apiDomain := URI.decodeURIComponent d in
        try! courseId := URI.decodeURIComponent c in
        URI.encodeURIComponent (apiDomain ++ js "_" ++ courseId))
     /\ forall k,
          cookieName (baseUrl (req x)) = Ok k ->
          exists later,
            calls (snd (authorizationMiddleware x))
            = calls x ++ ReadSignedCookie k :: later)
  /\ cookieName (js "/api/ucberkeley.canvas.com/21312")
     = URI.encodeURIComponent (js "ucberkeley.canvas.com_21312")
  /\ cookieName (js "/api/ucberkeley.canvas.com/21312/statements")
     = URI.encodeURIComponent (js "ucberkeley.canvas.com_21312")
  /\ URI.encodeURIComponent (js "ucberkeley.canvas.com_21312")
     = Ok (js "ucberkeley.canvas.com_21312").
Proof.
  split; [|repeat split; vm_compute; reflexivity].
  intros x d c rest Hctx Hurl Hd Hc Hrest. split.
  - destruct (split_api_path d c rest Hd Hc Hrest) as [segs Hsegs].
    unfold cookieName. rewrite Hurl, Hsegs. reflexivity.
  - intros k Hk. rewrite (middleware_without_context x k Hctx Hk). cbn.
    destruct (ToBoolean (default _ _)); cbn; eexists; reflexivity.
Qed.

Lemma cookie_name_of_api_path_witness :
  cookieName (baseUrl (req launched)) =
    (try! apiDomain := URI.decodeURIComponent (js "ucberkeley.canvas.com") in
     try! courseId := URI.decodeURIComponent (js "21312") in
     URI.encodeURIComponent (apiDomain ++ js "_" ++ courseId))
  /\ forall k,
       cookieName (baseUrl (req launched)) = Ok k ->
       exists later,
         calls (snd (authorizationMiddleware launched))
         = calls launched ++ ReadSignedCookie k :: later.
Proof.
  apply (proj1 cookie_name_of_api_path launched
           (js "ucberkeley.canvas.com") (js "21312") []).
  - reflexivity.
  - reflexivity.
  - now apply (bool_decide_unpack _).
  - now apply (bool_decide_unpack _).
  - left; reflexivity.
Defined.

(** C5. A request that already carries a (truthy) context: the handler
    calls [next()] and does nothing else. Request, context, cookies and
    response are as before, and neither a cookie lookup nor a call of the
    users API is made. *)
Theorem context_passes_through (x : exchange) :
  ToBoolean (ctx (req x)) = true ->
  authorizationMiddleware x =
    (Ok Nothing, Exchange (req x) (res x) (calls x ++ [Next None])).
Proof.
  intros Hctx. unfold authorizationMiddleware, bind, gets. cbv beta.
  rewrite Hctx. reflexivity.
Qed.

Lemma context_passes_through_witness :
  authorizationMiddleware preauthorized =
    (Ok Nothing,
     Exchange (req preauthorized) (res preauthorized) [Next None]).
Proof.
  apply (context_passes_through preauthorized). reflexivity.
Defined.

(** C9. The cookie name does not determine the pair of domain and course:
    the pairs ("a_b", "c") and ("a", "b_c") differ and have the one name
    "a_b_c", and a cookie of that name gets a request for either pair past
    the handler, to the users API. *)
Theorem cookie_name_is_not_injective :
  (js "a_b", js "c") <> (js "a", js "b_c")
  /\ cookieName (js "/api/a_b/c") = Ok (js "a_b_c")
  /\ cookieName (js "/api/a/b_c") = Ok (js "a_b_c")
  /\ forall (cookies : gmap jsstring value) (userId : value)
            (r : response) (cs : list call),
       cookies !! js "a_b_c" = Some userId ->
       ToBoolean userId = true ->
       fst (authorizationMiddleware
              (Exchange (Request (js "/api/a_b/c") cookies VUndefined) r cs))
         = Ok (GetUserCallback userId)
       /\ fst (authorizationMiddleware
                 (Exchange (Request (js "/api/a/b_c") cookies VUndefined) r cs))
            = Ok (GetUserCallback userId).
Proof.
  assert (H1 : cookieName (js "/api/a_b/c") = Ok (js "a_b_c"))
    by (vm_compute; reflexivity).
  assert (H2 : cookieName (js "/api/a/b_c") = Ok (js "a_b_c"))
    by (vm_compute; reflexivity).
  split; [|split; [exact H1|split; [exact H2|]]].
  - intros E. apply (f_equal snd) in E. vm_compute in E. discriminate E.
  - intros cookies userId r cs Hcookie Hid. split.
    + rewrite (middleware_without_context
                 (Exchange (Request (js "/api/a_b/c") cookies VUndefined) r cs)
                 (js "a_b_c") eq_refl H1).
      cbn. rewrite Hcookie. cbn. rewrite Hid. reflexivity.
    + rewrite (middleware_without_context
                 (Exchange (Request (js "/api/a/b_c") cookies VUndefined) r cs)
                 (js "a_b_c") eq_refl H2).
      cbn. rewrite Hcookie. cbn. rewrite Hid. reflexivity.
Qed.

Lemma cookie_name_is_not_injective_witness :
  fst (authorizationMiddleware
         (Exchange (Request (js "/api/a_b/c")
                            {[ js "a_b_c" := VString (js "42") ]} VUndefined)
                   fresh_response []))
    = Ok (GetUserCallback (VString (js "42")))
  /\ fst (authorizationMiddleware
            (Exchange (Request (js "/api/a/b_c")
                               {[ js "a_b_c" := VString (js "42") ]} VUndefined)
                      fresh_response []))
       = Ok (GetUserCallback (VString (js "42"))).
Proof.
  apply (proj2 (proj2 (proj2 cookie_name_is_not_injective))
           {[ js "a_b_c" := VString (js "42") ]} (VString (js "42"))
           fresh_response []); vm_compute; reflexivity.
Defined.

(** C10. A request without a context whose cookie of the computed name
    holds a falsy value is answered like one without the cookie: status 401,
    the fixed body, and no call of the users API (the cookie lookup is the
    only call made). *)
Theorem falsy_cookie_is_unauthorized
  (x : exchange) (k : jsstring) (v : value) :
  ToBoolean (ctx (req x)) = false ->
  cookieName (baseUrl (req x)) = Ok k ->
  signedCookies (req x) !! k = Some v ->
  ToBoolean v = false ->
  authorizationMiddleware x =
    (Ok Nothing,
     Exchange (req x)
              (Response 401 (Some (js "Incorrect cookie information present")))
              (calls x ++ [ReadSignedCookie k])).
Proof.
  intros Hctx Hk Hcookie Hv.
  rewrite (middleware_without_context x k Hctx Hk), Hcookie. cbn.
  rewrite Hv. reflexivity.
Qed.

Lemma falsy_cookie_is_unauthorized_witness :
  authorizationMiddleware empty_cookie =
    (Ok Nothing,
     Exchange (req empty_cookie)
              (Response 401 (Some (js "Incorrect cookie information present")))
              [ReadSignedCookie (js "ucberkeley.canvas.com_21312")]).
Proof.
  apply (falsy_cookie_is_unauthorized empty_cookie
           (js "ucberkeley.canvas.com_21312") (VString []));
    vm_compute; reflexivity.
Defined.

(** ** Route discovery *)

Section Discovery.

Variable env : Env.

Lemma register_rest_log (m : jsstring) (log : list step) :
  snd (register_rest env m log) = log ++ probe env m.
Proof.
  unfold register_rest, probe, bind, emit, modify, throw, ret. cbn.
  destruct (fs_existsSync env (restFile env m)); cbn; [|reflexivity].
  destruct (require_file env (restFile env m)); cbn;
    now rewrite <- !app_assoc.
Qed.

Lemma register_rest_missing (m : jsstring) (log : list step) :
  fs_existsSync env (restFile env m) = false ->
  register_rest env m log = (Ok tt, log ++ [ExistsSync (restFile env m)]).
Proof.
  intros Hmissing.
  unfold register_rest, bind, emit, modify, ret. cbn.
  now rewrite Hmissing.
Qed.

Lemma register_rest_returns (m : jsstring) (log : list step) :
  (fs_existsSync env (restFile env m) = true ->
   require_file env (restFile env m) = None) ->
  register_rest env m log = (Ok tt, log ++ probe env m).
Proof.
  intros Hload. rewrite <- register_rest_log.
  unfold register_rest, bind, emit, modify, throw, ret. cbn.
  destruct (fs_existsSync env (restFile env m)); cbn; [|reflexivity].
  now rewrite Hload.
Qed.

(** The loop over a list of modules that load cleanly. *)
Lemma each_register_rest (ms : list jsstring) (log : list step) :
  loads_cleanly env ms ->
  each ms (register_rest env) log = (Ok tt, log ++ flat_map (probe env) ms).
Proof.
  revert log. induction ms as [|m ms IH]; intros log Hclean; cbn.
  - unfold ret. now rewrite app_nil_r.
  - unfold bind. rewrite register_rest_returns.
    + rewrite IH; [now rewrite <- app_assoc|].
      intros m' Hm'. apply Hclean. apply elem_of_cons. now right.
    + apply Hclean. apply elem_of_cons. now left.
Qed.

(** Whatever the loads do, the loop takes the steps of the module list in
    order: all of them when it returns, and those up to the load that
    raised otherwise. *)
Lemma each_register_rest_prefix (ms : list jsstring) (log : list step) :
  exists done todo,
    snd (each ms (register_rest env) log) = log ++ done
    /\ flat_map (probe env) ms = done ++ todo
    /\ (fst (each ms (register_rest env) log) = Ok tt -> todo = []).
Proof.
  revert log. induction ms as [|m ms IH]; intros log; cbn.
  - exists [], []. now rewrite app_nil_r.
  - unfold bind.
    pose proof (register_rest_log m log) as Hlog.
    destruct (register_rest env m log) as [[[]|e] log'];
      cbn in Hlog; subst log'.
    + destruct (IH (log ++ probe env m)) as (done & todo & H1 & H2 & H3).
      exists (probe env m ++ done), todo.
      rewrite H1, H2, <- !app_assoc. auto.
    + exists (probe env m), (flat_map (probe env) ms). cbn.
      repeat split. discriminate.
Qed.

End Discovery.

(** [initializeServer] when every existing rest.js loads. *)
Lemma initializeServer_returns (env : Env) (log : list step) :
  loads_cleanly env (Modules_getAvailableModules env) ->
  initializeServer env log =
    (Ok tt,
     log
     ++ [SetUpServer; NewRouter; RouterUseAuthorization;
         AppUse (js "/api/:apidomain/:course"); GetAvailableModules]
     ++ flat_map (probe env) (Modules_getAvailableModules env)
     ++ [LogInfo (js "Finished initializing REST APIs")]).
Proof.
  intros Hclean.
  unfold initializeServer, initializeAuthorizationMiddleware, bind, emit,
    modify.
  rewrite each_register_rest by assumption.
  now rewrite <- !app_assoc.
Qed.

(** The steps of [initializeServer] are always an initial part of those of
    a successful one. *)
Lemma initializeServer_prefix (env : Env) (log : list step) :
  exists done todo,
    snd (initializeServer env log) = log ++ done
    /\ [SetUpServer; NewRouter; RouterUseAuthorization;
        AppUse (js "/api/:apidomain/:course"); GetAvailableModules]
       ++ flat_map (probe env) (Modules_getAvailableModules env)
       ++ [LogInfo (js "Finished initializing REST APIs")]
       = done ++ todo
    /\ (fst (initializeServer env log) = Ok tt -> todo = []).
Proof.
  unfold initializeServer, initializeAuthorizationMiddleware, bind, emit,
    modify.
  set (log5 := ((((log ++ _) ++ _) ++ _) ++ _) ++ _).
  destruct (each_register_rest_prefix env (Modules_getAvailableModules env)
              log5) as (done & todo & H1 & H2 & H3).
  destruct (each _ _ log5) as [[[]|e] log'] eqn:E; cbn in H1; subst log'.
  - rewrite (H3 eq_refl), app_nil_r in H2. subst log5.
    exists ([SetUpServer; NewRouter; RouterUseAuthorization;
             AppUse (js "/api/:apidomain/:course"); GetAvailableModules]
            ++ done ++ [LogInfo (js "Finished initializing REST APIs")]),
           [].
    cbn. rewrite H2, app_nil_r, <- !app_assoc. repeat split.
  - subst log5.
    exists ([SetUpServer; NewRouter; RouterUseAuthorization;
             AppUse (js "/api/:apidomain/:course"); GetAvailableModules]
            ++ done),
           (todo ++ [LogInfo (js "Finished initializing REST APIs")]).
    cbn. rewrite H2, <- !app_assoc. repeat split. discriminate.
Qed.

(** In an initial part of [pre ++ rest], a step that [pre] does not hold
    comes after all of [pre]. *)
Lemma precedes_in_prefix (a b : step) (pre rest log todo : list step) :
  log ++ todo = pre ++ rest -> a ∈ pre -> b ∉ pre -> precedes a b log.
Proof.
  intros Hlog Ha Hb before after ->.
  rewrite <- app_assoc in Hlog. cbn in Hlog.
  apply app_eq_app in Hlog as [l [[-> _]|[-> Hl]]].
  - apply elem_of_app. now left.
  - destruct l as [|c l].
    + now rewrite app_nil_r in Ha.
    + injection Hl as <- _. exfalso. apply Hb.
      apply elem_of_app. right. apply elem_of_cons. now left.
Qed.

(** [init], stage by stage. The callbacks take no argument: what a
    collaborator passes to them is dropped. *)
Lemma init_stages (env : Env) :
  init env [] =
    match DB_init env with
    | CallsBack _ =>
        match Modules_init env with
        | CallsBack _ =>
            match initializeServer env
                    [RequireGlobals; OnUncaughtException; DBInit; ModulesInit]
            with
            | (Ok _, log) => (Ok tt, log ++ [Callback])
            | (Throw e, log) => (Throw e, log)
            end
        | NeverCallsBack =>
            (Ok tt, [RequireGlobals; OnUncaughtException; DBInit; ModulesInit])
        | Raises e =>
            (Throw (Thrown e),
             [RequireGlobals; OnUncaughtException; DBInit; ModulesInit])
        end
    | NeverCallsBack => (Ok tt, [RequireGlobals; OnUncaughtException; DBInit])
    | Raises e =>
        (Throw (Thrown e), [RequireGlobals; OnUncaughtException; DBInit])
    end.
Proof.
  unfold init, call_async, bind, emit, modify, throw, ret.
  destruct (DB_init env), (Modules_init env); reflexivity.
Qed.

(** The steps of [init] are always an initial part of the steps of a
    successful start-up. *)
Lemma init_prefix (env : Env) :
  exists todo, snd (init env []) ++ todo = startup_order env.
Proof.
  rewrite init_stages. unfold startup_order.
  destruct (DB_init env) as [a| |e]; [|eexists; reflexivity..].
  destruct (Modules_init env) as [b| |e]; [|eexists; reflexivity..].
  pose proof (initializeServer_prefix env
    [RequireGlobals; OnUncaughtException; DBInit; ModulesInit])
    as (done & todo & H1 & H2 & H3).
  destruct (initializeServer env _) as [[[]|e] log']; cbn in H1; subst log'.
  - exists []. rewrite (H3 eq_refl), app_nil_r in H2.
    cbn [snd]. rewrite app_nil_r, <- H2. cbn.
    now rewrite <- app_assoc.
  - exists (todo ++ [Callback]). cbn [snd].
    transitivity ([RequireGlobals; OnUncaughtException; DBInit; ModulesInit]
                  ++ (done ++ todo) ++ [Callback]).
    + cbn. now rewrite <- app_assoc.
    + rewrite <- H2. cbn. now rewrite <- app_assoc.
Qed.

(** [initializeServer] always gets as far as fetching the module list. *)
Lemma initializeServer_starts (env : Env) (log : list step) :
  exists rest,
    snd (initializeServer env log) =
      log ++ [SetUpServer; NewRouter; RouterUseAuthorization;
              AppUse (js "/api/:apidomain/:course"); GetAvailableModules]
          ++ rest.
Proof.
  unfold initializeServer, initializeAuthorizationMiddleware, bind, emit,
    modify.
  set (log5 := ((((log ++ _) ++ _) ++ _) ++ _) ++ _).
  destruct (each_register_rest_prefix env (Modules_getAvailableModules env)
              log5) as (done & todo & H1 & _).
  destruct (each _ _ log5) as [[[]|e] log']; cbn in H1; subst log' log5; cbn.
  - exists (done ++ [LogInfo (js "Finished initializing REST APIs")]).
    now rewrite <- !app_assoc.
  - exists done. now rewrite <- !app_assoc.
Qed.

(** ** The claims about start-up *)

(** A stage that raises or never calls back ends start-up there. *)
Lemma init_stops_at_database (env : Env) :
  (exists a, DB_init env = CallsBack a)
  \/ snd (init env []) = [RequireGlobals; OnUncaughtException; DBInit].
Proof.
  rewrite init_stages. destruct (DB_init env); eauto.
Qed.

Lemma init_stops_at_modules (env : Env) (a : list value) :
  DB_init env = CallsBack a ->
  (exists b, Modules_init env = CallsBack b)
  \/ snd (init env [])
     = [RequireGlobals; OnUncaughtException; DBInit; ModulesInit].
Proof.
  intros Hdb. rewrite init_stages, Hdb. destruct (Modules_init env); eauto.
Qed.

(** C6. The database reports an error to the callback of [DB.init]; that
    callback takes no argument, so start-up goes on: the modules are
    initialized, the server is set up, the rest.js files are probed and
    loaded, and the callback of [init] is called without an error. *)
Theorem init_runs_on_after_database_error :
  init database_down [] =
    (Ok tt,
     [RequireGlobals; OnUncaughtException; DBInit; ModulesInit; SetUpServer;
      NewRouter; RouterUseAuthorization; AppUse (js "/api/:apidomain/:course");
      GetAvailableModules;
      ExistsSync (js "/opt/lrs/lib/lrs-core/rest.js");
      ExistsSync (js "/opt/lrs/lib/lrs-users/rest.js");
      LogDebug (js "lrs-users");
      Require (js "/opt/lrs/lib/lrs-users/rest.js");
      LogInfo (js "Finished initializing REST APIs"); Callback]).
Proof. vm_compute. reflexivity. Qed.

(** C7. Start-up takes its steps in one order and each stage waits for
    the one before it. [DB.init] is called before [Modules.init], that
    before [Server.setUpServer], that before the registration of the
    authorization middleware on the API router, that before the module list
    is fetched and before any rest.js is probed or loaded; the callback of
    [init] comes after the server set-up. No step after the call of
    [DB.init] is taken unless [DB.init] has called back, and no step after
    the call of [Modules.init] unless [Modules.init] has called back as
    well; once they have, the next stage does begin. When both collaborators
    call back and every rest.js loads, the steps are exactly those of
    [startup_order]. *)
Theorem startup_is_in_order (env : Env) :
  let log := snd (init env []) in
  (precedes DBInit ModulesInit log
   /\ precedes ModulesInit SetUpServer log
   /\ precedes SetUpServer RouterUseAuthorization log
   /\ precedes RouterUseAuthorization GetAvailableModules log
   /\ (forall f, precedes GetAvailableModules (ExistsSync f) log)
   /\ (forall f, precedes GetAvailableModules (Require f) log)
   /\ precedes SetUpServer Callback log
   /\ precedes GetAvailableModules Callback log)
  /\ (forall s,
        s ∈ log ->
        s ∉ [RequireGlobals; OnUncaughtException; DBInit] ->
        exists a, DB_init env = CallsBack a)
  /\ (forall s,
        s ∈ log ->
        s ∉ [RequireGlobals; OnUncaughtException; DBInit; ModulesInit] ->
        exists b, Modules_init env = CallsBack b)
  /\ (forall a, DB_init env = CallsBack a -> ModulesInit ∈ log)
  /\ (forall a b,
        DB_init env = CallsBack a ->
        Modules_init env = CallsBack b ->
        SetUpServer ∈ log /\ RouterUseAuthorization ∈ log
        /\ GetAvailableModules ∈ log)
  /\ (forall a b,
        DB_init env = CallsBack a ->
        Modules_init env = CallsBack b ->
        loads_cleanly env (Modules_getAvailableModules env) ->
        init env [] = (Ok tt, startup_order env)).
Proof.
  intros log. split; [|split; [|split; [|split; [|split]]]].
  - destruct (init_prefix env) as [todo Htodo]. fold log in Htodo.
    unfold startup_order in Htodo.
    set (stages := [RequireGlobals; OnUncaughtException; DBInit; ModulesInit;
                    SetUpServer; NewRouter; RouterUseAuthorization;
                    AppUse (js "/api/:apidomain/:course");
                    GetAvailableModules]) in Htodo.
    assert (Hcut : forall n a b,
              a ∈ take n stages -> b ∉ take n stages -> precedes a b log).
    { intros n a b Ha Hb.
      apply (precedes_in_prefix a b (take n stages)
               (drop n stages
                ++ flat_map (probe env) (Modules_getAvailableModules env)
                ++ [LogInfo (js "Finished initializing REST APIs"); Callback])
               log todo); [|exact Ha|exact Hb].
      rewrite Htodo, (app_assoc (take n stages)), take_drop.
      reflexivity. }
    subst stages.
    repeat split; intros;
      [apply (Hcut 3%nat)|apply (Hcut 4%nat)|apply (Hcut 5%nat)
      |apply (Hcut 7%nat)|apply (Hcut 9%nat)|apply (Hcut 9%nat)
      |apply (Hcut 5%nat)|apply (Hcut 9%nat)];
      cbn; solve [step_listed | step_not_listed].
  - subst log. rewrite init_stages. intros s.
    destruct (DB_init env) as [a| |e]; cbv beta iota; cbn [snd];
      [eauto|intros Hs Hn; contradiction..].
  - subst log. rewrite init_stages. intros s.
    destruct (DB_init env) as [a| |e]; cbv beta iota; cbn [snd].
    2,3: intros Hs Hn; exfalso; apply Hn;
         rewrite !elem_of_cons in Hs; rewrite !elem_of_cons; tauto.
    destruct (Modules_init env) as [b| |e]; cbv beta iota; cbn [snd];
      [eauto|intros Hs Hn; contradiction..].
  - subst log. rewrite init_stages. intros a ->.
    destruct (initializeServer_starts env
      [RequireGlobals; OnUncaughtException; DBInit; ModulesInit])
      as [rest Hrest].
    destruct (Modules_init env) as [b| |e]; cbv beta iota; cbn [snd];
      [|step_listed..].
    destruct (initializeServer env _) as [[[]|e] log];
      cbn [snd] in *; subst log;
      rewrite !elem_of_app, !elem_of_cons; tauto.
  - subst log. rewrite init_stages. intros a b -> ->.
    destruct (initializeServer_starts env
      [RequireGlobals; OnUncaughtException; DBInit; ModulesInit])
      as [rest Hrest].
    destruct (initializeServer env _) as [[[]|e] log];
      cbn [snd] in *; subst log;
      rewrite !elem_of_app, !elem_of_cons; tauto.
  - intros a b Hdb Hmod Hclean.
    rewrite init_stages, Hdb, Hmod, initializeServer_returns by assumption.
    unfold startup_order. cbn. now rewrite <- !app_assoc.
Qed.

Lemma installation_loads_cleanly :
  loads_cleanly installation (Modules_getAvailableModules installation).
Proof. intros m _ _. reflexivity. Defined.

Lemma startup_is_in_order_witness :
  init installation [] = (Ok tt, startup_order installation).
Proof.
  apply (proj2 (proj2 (proj2 (proj2 (proj2
           (startup_is_in_order installation))))) [] []).
  - reflexivity.
  - reflexivity.
  - exact installation_loads_cleanly.
Defined.




(** * Further properties *)

(** ** Properties of plain objects *)

Lemma get_put_same (props : list (jsstring * value)) (k : jsstring) (v : value) :
  get_prop (put_prop props k v) k = v.
Proof.
  induction props as [|[k' v'] props IH]; cbn.
  - now rewrite decide_True.
  - destruct (decide (k' = k)) as [->|Hne]; cbn.
    + now rewrite decide_True.
    + now rewrite decide_False.
Qed.

Lemma get_put_other (props : list (jsstring * value)) (k k' : jsstring)
  (v : value) :
  k' <> k -> get_prop (put_prop props k v) k' = get_prop props k'.
Proof.
  intros Hne. induction props as [|[k0 v0] props IH]; cbn.
  - now rewrite decide_False by congruence.
  - destruct (decide (k0 = k)) as [->|Hk0]; cbn.
    + now rewrite !decide_False by congruence.
    + destruct (decide (k0 = k')); [reflexivity|exact IH].
Qed.

(** ** Properties of the URI built-ins *)

(** Induction that may use the tail of the tail, as [Encode] does on a
    surrogate pair. *)
Lemma list_ind_two {A} (P : list A -> Prop) :
  P [] ->
  (forall a l, P l -> (forall b l', l = b :: l' -> P l') -> P (a :: l)) ->
  forall l, P l.
Proof.
  intros Hnil Hcons l.
  enough (H : P l /\ (forall b l', l = b :: l' -> P l')) by apply H.
  induction l as [|a l [IH1 IH2]].
  - split; [exact Hnil|discriminate].
  - split; [now apply Hcons|]. intros b l' [= <- <-]. exact IH1.
Qed.

Lemma decode_escape_throws (s : jsstring) (e : exn) :
  URI.decode_escape s = Throw e -> e = URIError.
Proof.
  unfold URI.decode_escape.
  repeat (match goal with
          | |- context [match ?t with _ => _ end] => destruct t
          end); congruence.
Qed.

Lemma Decode_throws (s : jsstring) :
  forall skip e, URI.Decode skip s = Throw e -> e = URIError.
Proof.
  induction s as [|c s IH]; intros skip e; cbn; [discriminate|].
  destruct skip as [|k]; [|apply IH].
  destruct (c =? 37).
  - destruct (URI.decode_escape s) as [d|e'] eqn:Hd; cbn.
    + destruct (URI.Decode d.2 s) eqn:Hr; cbn; [discriminate|].
      intros [= <-]. eapply IH, Hr.
    + intros [= <-]. eapply decode_escape_throws, Hd.
  - destruct (URI.Decode 0 s) eqn:Hr; cbn; [discriminate|].
    intros [= <-]. eapply IH, Hr.
Qed.

Lemma Encode_throws (s : jsstring) (e : exn) :
  URI.Encode s = Throw e -> e = URIError.
Proof.
  revert e. induction s as [|c s IH1 IH2] using list_ind_two; intros e; cbn;
    [discriminate|].
  destruct (URI.unescaped c).
  { destruct (URI.Encode s) eqn:Hr; cbn; [discriminate|].
    intros [= <-]. now apply IH1. }
  destruct (URI.between 55296 c 56319).
  { destruct s as [|c2 s']; [congruence|].
    destruct (URI.between 56320 c2 57343); [|congruence].
    destruct (URI.Encode s') eqn:Hr; cbn; [discriminate|].
    intros [= <-]. now apply (IH2 c2 s' eq_refl). }
  destruct (URI.between 56320 c 57343); [congruence|].
  destruct (URI.Encode s) eqn:Hr; cbn; [discriminate|].
  intros [= <-]. now apply IH1.
Qed.

(** The only exception of the cookie name is the URIError of a built-in. *)
Lemma cookieName_throws (url : jsstring) (e : exn) :
  cookieName url = Throw e -> e = URIError.
Proof.
  unfold cookieName, URI.decodeURIComponent, URI.encodeURIComponent.
  destruct (URI.Decode 0 (ToString (split 47 url !! 2%nat))) eqn:H2; cbn;
    [|intros [= <-]; eapply Decode_throws, H2].
  destruct (URI.Decode 0 (ToString (split 47 url !! 3%nat))) eqn:H3; cbn;
    [|intros [= <-]; eapply Decode_throws, H3].
  apply Encode_throws.
Qed.

(** A string without [%] decodes to itself. *)
Lemma Decode_without_percent (s : jsstring) :
  37 ∉ s -> URI.Decode 0 s = Ok s.
Proof.
  induction s as [|c s IH]; intros Hs; [reflexivity|].
  apply not_elem_of_cons in Hs as [Hc Hs]. cbn.
  destruct (N.eqb_spec c 37) as [->|_]; [contradiction|].
  now rewrite (IH Hs).
Qed.

(** A string of unreserved characters encodes to itself. *)
Lemma Encode_unescaped (s : jsstring) :
  forallb URI.unescaped s = true -> URI.Encode s = Ok s.
Proof.
  induction s as [|c s IH]; [reflexivity|]. cbn.
  intros [Hc Hs]%andb_prop. now rewrite Hc, (IH Hs).
Qed.

Lemma unescaped_not (s : jsstring) (c : N) :
  URI.unescaped c = false -> forallb URI.unescaped s = true -> c ∉ s.
Proof.
  intros Hc Hs Hin. induction s as [|a s IH]; [now apply elem_of_nil in Hin|].
  cbn in Hs. apply andb_prop in Hs as [Ha Hs].
  apply elem_of_cons in Hin as [->|Hin]; [congruence|now apply IH].
Qed.

(** ** Further properties of the middleware *)

(** X1. Every run of the handler ends in one of four ways, decided by the
    context, the cookie name and the cookie of that name. A request with a
    truthy context is passed on with [next()]. Without one: when the name
    computation throws, the handler throws a URIError before doing
    anything; when the value under the computed name is missing or falsy,
    it answers 401 after the lookup; when the value is truthy, it hands
    that very value to the users API. It never changes the request, never
    calls [next] with an error, and never both writes the response and
    calls [next] or the users API. *)
Theorem handler_outcomes (x : exchange) :
  req (snd (authorizationMiddleware x)) = req x
  /\ ((ToBoolean (ctx (req x)) = true
       /\ authorizationMiddleware x =
            (Ok Nothing, Exchange (req x) (res x) (calls x ++ [Next None])))
      \/ (ToBoolean (ctx (req x)) = false
          /\ (exists e, cookieName (baseUrl (req x)) = Throw e)
          /\ authorizationMiddleware x = (Throw URIError, x))
      \/ (exists k,
            ToBoolean (ctx (req x)) = false
            /\ cookieName (baseUrl (req x)) = Ok k
            /\ ToBoolean (default VUndefined (signedCookies (req x) !! k))
               = false
            /\ authorizationMiddleware x =
                 (Ok Nothing,
                  Exchange (req x)
                    (Response 401
                       (Some (js "Incorrect cookie information present")))
                    (calls x ++ [ReadSignedCookie k])))
      \/ (exists k userId,
            ToBoolean (ctx (req x)) = false
            /\ cookieName (baseUrl (req x)) = Ok k
            /\ signedCookies (req x) !! k = Some userId
            /\ ToBoolean userId = true
            /\ authorizationMiddleware x =
                 (Ok (GetUserCallback userId),
                  Exchange (req x) (res x)
                    (calls x ++ [ReadSignedCookie k; GetUser userId])))).
Proof.
  destruct (ToBoolean (ctx (req x))) eqn:Hctx.
  - assert (H : authorizationMiddleware x =
                  (Ok Nothing, Exchange (req x) (res x) (calls x ++ [Next None]))).
    { unfold authorizationMiddleware, bind, gets. cbv beta.
      now rewrite Hctx. }
    rewrite H. split; [reflexivity|]. left. now split.
  - destruct (cookieName (baseUrl (req x))) as [k|e] eqn:Hk.
    + rewrite (middleware_without_context x k Hctx Hk). cbn.
      destruct (signedCookies (req x) !! k) as [userId|] eqn:Hcookie; cbn.
      * destruct (ToBoolean userId) eqn:Hid.
        -- split; [reflexivity|]. right; right; right.
           now exists k, userId.
        -- split; [reflexivity|]. right; right; left. exists k.
           rewrite Hcookie. cbn. now rewrite Hid.
      * split; [reflexivity|]. right; right; left. exists k.
        rewrite Hcookie. now cbn.
    + assert (H : authorizationMiddleware x = (Throw URIError, x)).
      { unfold authorizationMiddleware, bind, gets, lift. cbv beta.
        rewrite Hctx, Hk. now rewrite (cookieName_throws _ _ Hk). }
      rewrite H. split; [reflexivity|]. right; left.
      split; [reflexivity|]. split; [now exists e|reflexivity].
Qed.

(** X2. When a built-in rejects a path segment (a malformed escape), the
    handler throws a URIError and has done nothing: no cookie was read, the
    response is untouched and [next] was not called. *)
Theorem malformed_escape_throws (x : exchange) (e : exn) :
  ToBoolean (ctx (req x)) = false ->
  cookieName (baseUrl (req x)) = Throw e ->
  authorizationMiddleware x = (Throw URIError, x).
Proof.
  intros Hctx Hk.
  unfold authorizationMiddleware, bind, gets, lift. cbv beta.
  rewrite Hctx, Hk. now rewrite (cookieName_throws _ _ Hk).
Qed.

Lemma malformed_escape_throws_witness :
  authorizationMiddleware malformed = (Throw URIError, malformed).
Proof.
  apply (malformed_escape_throws malformed URIError); vm_compute; reflexivity.
Defined.

(** X3. A URL that stops after the domain, [/api/d], has no fourth segment:
    the course is the string "undefined" and the cookie name is the encoding
    of the domain followed by "_undefined". With a trailing slash, [/api/d/],
    the course is the empty string and the name ends in the underscore. *)
Theorem cookie_name_without_course (d : jsstring) :
  47 ∉ d ->
  cookieName (js "/api/" ++ d) =
    (try! apiDomain := URI.decodeURIComponent d in
     URI.encodeURIComponent (apiDomain ++ js "_undefined"))
  /\ cookieName (js "/api/" ++ d ++ js "/") =
       (try! apiDomain := URI.decodeURIComponent d in
        URI.encodeURIComponent (apiDomain ++ js "_")).
Proof.
  intros Hd. split.
  - unfold cookieName.
    change (js "/api/" ++ d) with ([] ++ 47 :: (js "api" ++ 47 :: d)).
    rewrite split_at_separator by apply not_elem_of_nil.
    rewrite split_at_separator by (now apply (bool_decide_unpack _)).
    rewrite split_without_separator by assumption.
    unfold URI.decodeURIComponent. cbn [lookup list_lookup ToString].
    change (URI.Decode 0 (js "undefined")) with (Ok (js "undefined")).
    change (js "_undefined") with (js "_" ++ js "undefined").
    destruct (URI.Decode 0 d); reflexivity.
  - destruct (split_api_path d [] [] Hd (not_elem_of_nil 47) (or_introl eq_refl))
      as [segs Hsegs].
    unfold cookieName.
    change (js "/api/" ++ d ++ js "/") with (js "/api/" ++ d ++ 47 :: [] ++ []).
    rewrite Hsegs.
    unfold URI.decodeURIComponent. cbn [lookup list_lookup ToString].
    change (URI.Decode 0 []) with (@Ok jsstring []).
    change (js "_") with (js "_" ++ []) at 2.
    destruct (URI.Decode 0 d); reflexivity.
Qed.

Lemma cookie_name_without_course_witness :
  cookieName (js "/api/" ++ js "ucberkeley.canvas.com") =
    (try! apiDomain := URI.decodeURIComponent (js "ucberkeley.canvas.com") in
     URI.encodeURIComponent (apiDomain ++ js "_undefined"))
  /\ cookieName (js "/api/" ++ js "ucberkeley.canvas.com" ++ js "/") =
       (try! apiDomain := URI.decodeURIComponent (js "ucberkeley.canvas.com") in
        URI.encodeURIComponent (apiDomain ++ js "_")).
Proof.
  apply (cookie_name_without_course (js "ucberkeley.canvas.com")).
  now apply (bool_decide_unpack _).
Defined.

(** X4. When domain and course are written with unreserved characters only
    (letters, digits and [- _ . ! ~ * ' ( )]), nothing is escaped: the cookie
    name is the domain, an underscore and the course, as they stand in the
    URL. *)
Theorem plain_cookie_name (d c rest : jsstring) :
  forallb URI.unescaped d = true ->
  forallb URI.unescaped c = true ->
  rest = [] \/ (exists r, rest = 47 :: r) ->
  cookieName (js "/api/" ++ d ++ 47 :: c ++ rest) = Ok (d ++ js "_" ++ c).
Proof.
  intros Hd Hc Hrest.
  destruct (split_api_path d c rest) as [segs Hsegs];
    [now apply unescaped_not..|assumption|].
  unfold cookieName, URI.decodeURIComponent, URI.encodeURIComponent.
  rewrite Hsegs. cbn.
  rewrite !Decode_without_percent by now apply unescaped_not. cbn.
  apply Encode_unescaped. rewrite !forallb_app, Hd, Hc. reflexivity.
Qed.

Lemma plain_cookie_name_witness :
  cookieName (js "/api/" ++ js "ucberkeley.canvas.com" ++ 47 :: js "21312" ++ [])
  = Ok (js "ucberkeley.canvas.com" ++ js "_" ++ js "21312").
Proof.
  apply (plain_cookie_name (js "ucberkeley.canvas.com") (js "21312") []).
  - reflexivity.
  - reflexivity.
  - left; reflexivity.
Defined.

(** X6. Once the callback has attached the user, the request carries a
    context: the handler run again on it calls [next()] and does nothing
    else, without a second cookie lookup or call of the users API. *)
Theorem authorized_request_passes_again
  (x : exchange) (k : jsstring) (userId err user : value) :
  ToBoolean (ctx (req x)) = false ->
  cookieName (baseUrl (req x)) = Ok k ->
  signedCookies (req x) !! k = Some userId ->
  ToBoolean userId = true ->
  ToBoolean err = false ->
  exists x1 x2,
    authorizationMiddleware x = (Ok (GetUserCallback userId), x1)
    /\ getUser_callback err user x1 = (Ok tt, x2)
    /\ authorizationMiddleware x2 =
         (Ok Nothing, Exchange (req x2) (res x2) (calls x2 ++ [Next None])).
Proof.
  intros Hctx Hk Hcookie Hid Herr.
  rewrite (middleware_without_context x k Hctx Hk), Hcookie. cbn.
  rewrite Hid. do 2 eexists. split; [reflexivity|].
  unfold getUser_callback. rewrite Herr.
  unfold bind, gets, set_ctx, next, record, modify. cbn.
  rewrite Hctx. cbn. split; reflexivity.
Qed.

Lemma authorized_request_passes_again_witness :
  exists x1 x2,
    authorizationMiddleware launched
      = (Ok (GetUserCallback (VString (js "42"))), x1)
    /\ getUser_callback VNull some_user x1 = (Ok tt, x2)
    /\ authorizationMiddleware x2 =
         (Ok Nothing, Exchange (req x2) (res x2) (calls x2 ++ [Next None])).
Proof.
  apply (authorized_request_passes_again launched
           (js "ucberkeley.canvas.com_21312") (VString (js "42")) VNull
           some_user); vm_compute; reflexivity.
Defined.

(** X7. The callback keeps a context object that is on the request when
    the users API answers ([req.ctx || {}]): it writes the [user] property,
    leaves every other property of the context as it is, does not touch the
    response, and calls [next()]. *)
Theorem callback_keeps_context
  (x1 : exchange) (err user : value) (props : list (jsstring * value)) :
  ToBoolean err = false ->
  ctx (req x1) = VObject props ->
  exists x2,
    getUser_callback err user x1 = (Ok tt, x2)
    /\ member (ctx (req x2)) (js "user") = user
    /\ (forall k, k <> js "user" ->
          member (ctx (req x2)) k = member (ctx (req x1)) k)
    /\ baseUrl (req x2) = baseUrl (req x1)
    /\ signedCookies (req x2) = signedCookies (req x1)
    /\ res x2 = res x1
    /\ calls x2 = calls x1 ++ [Next None].
Proof.
  intros Herr Hctx. eexists. split.
  - unfold getUser_callback. rewrite Herr.
    unfold bind, gets, set_ctx, next, record, modify. cbn.
    rewrite Hctx. cbn. reflexivity.
  - cbn. rewrite Hctx. cbn. split; [apply get_put_same|].
    split; [|repeat split].
    intros k Hk. now apply get_put_other.
Qed.

Lemma callback_keeps_context_witness :
  exists x2,
    getUser_callback VNull some_user with_tenant = (Ok tt, x2)
    /\ member (ctx (req x2)) (js "user") = some_user
    /\ (forall k, k <> js "user" ->
          member (ctx (req x2)) k = member (ctx (req with_tenant)) k)
    /\ baseUrl (req x2) = baseUrl (req with_tenant)
    /\ signedCookies (req x2) = signedCookies (req with_tenant)
    /\ res x2 = res with_tenant
    /\ calls x2 = calls with_tenant ++ [Next None].
Proof.
  apply (callback_keeps_context with_tenant VNull some_user
           [(js "tenant", VString (js "ucberkeley"))]); reflexivity.
Defined.

(** X8. Only the cookie of the computed name counts: adding or replacing a
    signed cookie of any other name changes neither the result of the
    handler, nor the response, nor the calls it makes. *)
Theorem other_cookies_do_not_count
  (x : exchange) (k k' : jsstring) (v : value) :
  ToBoolean (ctx (req x)) = false ->
  cookieName (baseUrl (req x)) = Ok k ->
  k' <> k ->
  let x' :=
    Exchange (Request (baseUrl (req x))
                      (<[k' := v]> (signedCookies (req x)))
                      (ctx (req x)))
             (res x) (calls x) in
  fst (authorizationMiddleware x') = fst (authorizationMiddleware x)
  /\ res (snd (authorizationMiddleware x'))
     = res (snd (authorizationMiddleware x))
  /\ calls (snd (authorizationMiddleware x'))
     = calls (snd (authorizationMiddleware x)).
Proof.
  intros Hctx Hk Hne x'.
  rewrite (middleware_without_context x k Hctx Hk).
  rewrite (middleware_without_context x' k Hctx Hk).
  cbn. rewrite lookup_insert_ne by assumption.
  destruct (ToBoolean (default VUndefined (signedCookies (req x) !! k)));
    repeat split.
Qed.

Lemma other_cookies_do_not_count_witness :
  let x' :=
    Exchange (Request (baseUrl (req off_scheme))
                      (<[js "a_b" := VString (js "7")]>
                         (signedCookies (req off_scheme)))
                      (ctx (req off_scheme)))
             (res off_scheme) (calls off_scheme) in
  fst (authorizationMiddleware x') = fst (authorizationMiddleware off_scheme)
  /\ res (snd (authorizationMiddleware x'))
     = res (snd (authorizationMiddleware off_scheme))
  /\ calls (snd (authorizationMiddleware x'))
     = calls (snd (authorizationMiddleware off_scheme)).
Proof.
  apply (other_cookies_do_not_count off_scheme (js "undefined_undefined")
           (js "a_b") (VString (js "7"))).
  - reflexivity.
  - vm_compute; reflexivity.
  - intros E. vm_compute in E. discriminate E.
Defined.

(** ** The characters of a cookie name *)



Lemma utf8_encode_octets (cp : N) :
  cp <= 1114111 -> Forall (fun b => b < 256) (URI.utf8_encode cp).
Proof.
  intros Hcp. unfold URI.utf8_encode.
  assert (H64 : forall n, 128 + n mod 64 < 256)
    by (intros n; pose proof (N.mod_lt n 64); lia).
  destruct (N.ltb_spec cp 128); [repeat constructor; lia|].
  destruct (N.ltb_spec cp 2048).
  { repeat constructor; [|apply H64].
    assert (cp / 64 < 32) by (apply N.Div0.div_lt_upper_bound; lia). lia. }
  destruct (N.ltb_spec cp 65536).
  { repeat constructor; [|apply H64..].
    assert (cp / 4096 < 16) by (apply N.Div0.div_lt_upper_bound; lia). lia. }
  repeat constructor; [|apply H64..].
  assert (cp / 262144 < 5) by (apply N.Div0.div_lt_upper_bound; lia). lia.
Qed.



Lemma UTF16EncodeCodePoint_code_units (v : N) :
  v <= 1114111 -> code_units (URI.UTF16EncodeCodePoint v).
Proof.
  intros Hv. unfold URI.UTF16EncodeCodePoint, code_units.
  destruct (N.leb_spec v 65535); repeat constructor; [lia| |].
  - assert ((v - 65536) / 1024 < 1024)
      by (apply N.Div0.div_lt_upper_bound; lia). lia.
  - pose proof (N.mod_lt (v - 65536) 1024). lia.
Qed.

Lemma utf8_decode_bound (octets : list N) (v : N) :
  URI.utf8_decode octets = Some v -> v <= 1114111.
Proof.
  unfold URI.utf8_decode.
  destruct octets as [|b0 [|b1 [|b2 [|b3 [|b4 o]]]]]; try discriminate.
  - destruct (_ && _); [|discriminate]. intros [= <-].
    pose proof (N.mod_lt b0 32). pose proof (N.mod_lt b1 64). lia.
  - destruct (_ && _); [|discriminate]. intros [= <-].
    pose proof (N.mod_lt b0 16). pose proof (N.mod_lt b1 64).
    pose proof (N.mod_lt b2 64). lia.
  - destruct (_ && _) eqn:H; [|discriminate]. intros [= <-].
    apply andb_prop in H as [_ H]. unfold URI.between in H.
    apply andb_prop in H as [_ H%N.leb_le]. exact H.
Qed.

Lemma decode_escape_code_units (s d : jsstring) (n : nat) :
  URI.decode_escape s = Ok (d, n) -> code_units d.
Proof.
  unfold URI.decode_escape.
  destruct (URI.ParseHexOctet s) as [[b rest]|]; [|discriminate].
  destruct (N.ltb_spec b 128).
  { intros [= <- _]. repeat constructor. lia. }
  destruct (URI.sequence_length b) as [m|]; [|discriminate].
  destruct (URI.continuation (m - 1) rest) as [bs|]; [|discriminate].
  destruct (URI.utf8_decode (b :: bs)) as [v|] eqn:Hv; [|discriminate].
  intros [= <- _].
  eapply UTF16EncodeCodePoint_code_units, utf8_decode_bound, Hv.
Qed.

(** What [decodeURIComponent] returns is a string of code units. *)
Lemma Decode_code_units (s : jsstring) :
  code_units s ->
  forall skip r, URI.Decode skip s = Ok r -> code_units r.
Proof.
  induction 1 as [|c s Hc Hs IH]; intros skip r; cbn.
  { intros [= <-]. constructor. }
  destruct skip as [|k]; [|apply IH].
  destruct (c =? 37).
  - destruct (URI.decode_escape s) as [[d n]|] eqn:Hd; cbn; [|discriminate].
    destruct (URI.Decode n s) as [r'|] eqn:Hr; cbn; [|discriminate].
    intros [= <-]. apply Forall_app. split.
    + eapply decode_escape_code_units, Hd.
    + eapply IH, Hr.
  - destruct (URI.Decode 0 s) as [r'|] eqn:Hr; cbn; [|discriminate].
    intros [= <-]. constructor; [exact Hc|]. eapply IH, Hr.
Qed.

Lemma split_code_units (sep : N) (s : jsstring) :
  code_units s -> Forall code_units (split sep s).
Proof.
  induction 1 as [|c s Hc Hs IH]; cbn.
  { repeat constructor. }
  destruct (c =? sep); [constructor; [constructor|exact IH]|].
  destruct (split sep s) as [|seg segs].
  - repeat constructor. exact Hc.
  - apply Forall_cons in IH as [Hseg Hsegs].
    constructor; [constructor; assumption|assumption].
Qed.

Lemma segment_code_units (url : jsstring) (i : nat) :
  code_units url -> code_units (ToString (split 47 url !! i)).
Proof.
  intros Hurl. destruct (split 47 url !! i) as [seg|] eqn:Hseg; cbn.
  - eapply (Forall_lookup_1 _ _ _ _ (split_code_units 47 url Hurl) Hseg).
  - unfold code_units. apply Forall_forall. intros c Hc.
    vm_compute in Hc.
    repeat (apply elem_of_cons in Hc as [->|Hc]; [reflexivity|]).
    now apply elem_of_nil in Hc.
Qed.



(** ** Further properties of start-up *)

Lemma each_app {S A} (l1 l2 : list A) (f : A -> M S unit) (s : S) :
  each (l1 ++ l2) f s =
    match each l1 f s with
    | (Ok _, s') => each l2 f s'
    | (Throw e, s') => (Throw e, s')
    end.
Proof.
  revert s. induction l1 as [|a l1 IH]; intros s; cbn; [reflexivity|].
  unfold bind. destruct (f a s) as [[[]|e] s']; [apply IH|reflexivity].
Qed.

Lemma register_rest_raises (env : Env) (m : jsstring) (e : value)
  (log : list step) :
  fs_existsSync env (restFile env m) = true ->
  require_file env (restFile env m) = Some e ->
  register_rest env m log =
    (Throw (Thrown e),
     log ++ [ExistsSync (restFile env m); LogDebug m; Require (restFile env m)]).
Proof.
  intros Hexists Hraise.
  unfold register_rest, bind, emit, modify, throw. cbn.
  rewrite Hexists. cbn. rewrite Hraise. now rewrite <- !app_assoc.
Qed.

(** The loop returns only if every file that exists has loaded. *)
Lemma each_register_rest_inv (env : Env) (ms : list jsstring)
  (log : list step) :
  fst (each ms (register_rest env) log) = Ok tt -> loads_cleanly env ms.
Proof.
  revert log. induction ms as [|m ms IH]; intros log Hok m' Hm'.
  { now apply elem_of_nil in Hm'. }
  cbn in Hok. unfold bind in Hok.
  destruct (require_file env (restFile env m)) as [e|] eqn:Hload.
  - destruct (fs_existsSync env (restFile env m)) eqn:Hexists.
    + rewrite (register_rest_raises env m e log Hexists Hload) in Hok.
      discriminate Hok.
    + rewrite register_rest_missing in Hok by assumption.
      apply elem_of_cons in Hm' as [->|Hm']; [congruence|].
      now apply (IH _ Hok).
  - rewrite register_rest_returns in Hok by (intros _; exact Hload).
    apply elem_of_cons in Hm' as [->|Hm']; [intros _; exact Hload|].
    now apply (IH _ Hok).
Qed.

Lemma probe_steps (env : Env) (m : jsstring) (s : step) :
  s ∈ probe env m ->
  s = ExistsSync (restFile env m)
  \/ (fs_existsSync env (restFile env m) = true
      /\ (s = LogDebug m \/ s = Require (restFile env m))).
Proof.
  unfold probe. intros [->|Hs]%elem_of_cons; [now left|]. right.
  destruct (fs_existsSync env (restFile env m)).
  - apply elem_of_cons in Hs as [->|Hs]; [auto|].
    apply elem_of_cons in Hs as [->|Hs]; [auto|].
    now apply elem_of_nil in Hs.
  - now apply elem_of_nil in Hs.
Qed.

Lemma flat_map_probe_steps (env : Env) (ms : list jsstring) (s : step) :
  s ∈ flat_map (probe env) ms -> exists m, m ∈ ms /\ s ∈ probe env m.
Proof.
  intros Hs. apply list_elem_of_In, in_flat_map in Hs as (m & Hm & Hs).
  exists m. split; now apply list_elem_of_In.
Qed.

(** A membership that cannot hold in a list that is written out. *)
Ltac step_excluded H :=
  exfalso; revert H;
  match goal with |- ?P -> False => change (~ P) end;
  step_not_listed.

(** A step of a start-up, successful or not, is a step of [startup_order]. *)
Lemma init_steps_listed (env : Env) (s : step) :
  s ∈ snd (init env []) -> s ∈ startup_order env.
Proof.
  destruct (init_prefix env) as [todo <-]. intros Hs.
  apply elem_of_app. now left.
Qed.

(** The first [n] stages come before every step that is not one of them. *)
Lemma init_cut (env : Env) (n : nat) (a b : step) :
  let stages := [RequireGlobals; OnUncaughtException; DBInit; ModulesInit;
                 SetUpServer; NewRouter; RouterUseAuthorization;
                 AppUse (js "/api/:apidomain/:course");
                 GetAvailableModules] in
  a ∈ take n stages -> b ∉ take n stages ->
  precedes a b (snd (init env [])).
Proof.
  intros stages Ha Hb.
  destruct (init_prefix env) as [todo Htodo].
  apply (precedes_in_prefix a b (take n stages)
           (drop n stages
            ++ flat_map (probe env) (Modules_getAvailableModules env)
            ++ [LogInfo (js "Finished initializing REST APIs"); Callback])
           _ todo); [|exact Ha|exact Hb].
  rewrite Htodo, (app_assoc (take n stages)), take_drop. reflexivity.
Qed.

(** X9. In the steps of every start-up, the registration of the
    authorization middleware on the API router comes before the mounting of
    the router on the application, and both come before the load of any
    rest.js. *)
Theorem authorization_is_registered_first (env : Env) (f : jsstring) :
  precedes RouterUseAuthorization (AppUse (js "/api/:apidomain/:course"))
           (snd (init env []))
  /\ precedes RouterUseAuthorization (Require f) (snd (init env []))
  /\ precedes (AppUse (js "/api/:apidomain/:course")) (Require f)
              (snd (init env [])).
Proof.
  split; [|split].
  - apply (init_cut env 7); cbn; solve [step_listed | step_not_listed].
  - apply (init_cut env 7); cbn; solve [step_listed | step_not_listed].
  - apply (init_cut env 8); cbn; solve [step_listed | step_not_listed].
Qed.

(** X10. The files the loop of route discovery loads ([require(restFile)],
    line 96) are rest.js files of modules of the module list, and only ones
    that [fs.existsSync] has found. (The one other load of start-up is the
    fixed [require('./globals')] of line 50, a step of its own.) *)
Theorem only_found_rest_files_are_loaded (env : Env) (f : jsstring) :
  Require f ∈ snd (init env []) ->
  fs_existsSync env f = true
  /\ exists m, m ∈ Modules_getAvailableModules env /\ f = restFile env m.
Proof.
  intros Hf%init_steps_listed. unfold startup_order in Hf.
  apply elem_of_app in Hf as [Hf|Hf].
  { step_excluded Hf. }
  apply elem_of_app in Hf as [Hf|Hf].
  - apply flat_map_probe_steps in Hf as (m & Hm & Hs).
    apply probe_steps in Hs as [Hs|[Hexists [Hs|Hs]]]; try discriminate Hs.
    injection Hs as ->. split; [exact Hexists|]. now exists m.
  - step_excluded Hf.
Qed.

Lemma only_found_rest_files_are_loaded_witness :
  fs_existsSync installation (js "/opt/lrs/lib/lrs-users/rest.js") = true
  /\ exists m,
       m ∈ Modules_getAvailableModules installation
       /\ js "/opt/lrs/lib/lrs-users/rest.js" = restFile installation m.
Proof.
  apply (only_found_rest_files_are_loaded installation
           (js "/opt/lrs/lib/lrs-users/rest.js")).
  match goal with
  | |- _ ∈ ?l => let l' := eval vm_compute in l in change l with l'
  end.
  step_listed.
Defined.

(** [initializeServer] returns only if every file that exists has loaded. *)
Lemma initializeServer_returns_inv (env : Env) (log : list step) :
  fst (initializeServer env log) = Ok tt ->
  loads_cleanly env (Modules_getAvailableModules env).
Proof.
  unfold initializeServer, initializeAuthorizationMiddleware, bind, emit,
    modify.
  set (log5 := ((((log ++ _) ++ _) ++ _) ++ _) ++ _).
  intros Hok. apply (each_register_rest_inv env _ log5).
  destruct (each _ _ log5) as [[[]|e] log']; [reflexivity|discriminate Hok].
Qed.

(** [initializeServer] does not call the callback of [init]. *)
Lemma initializeServer_no_callback (env : Env) (log : list step) :
  Callback ∉ log -> Callback ∉ snd (initializeServer env log).
Proof.
  intros Hlog.
  destruct (initializeServer_prefix env log) as (done & todo & -> & H2 & _).
  intros [Hin|Hin]%elem_of_app; [contradiction|].
  assert (Hall : Callback ∈ done ++ todo) by (apply elem_of_app; now left).
  rewrite <- H2 in Hall.
  apply elem_of_app in Hall as [Hall|Hall]; [step_excluded Hall|].
  apply elem_of_app in Hall as [Hall|Hall]; [|step_excluded Hall].
  apply flat_map_probe_steps in Hall as (m & _ & Hs).
  apply probe_steps in Hs as [Hs|[_ [Hs|Hs]]]; discriminate Hs.
Qed.

(** X11. When the rest.js of a module throws while it is loaded, start-up
    ends there with that exception: the modules after it in the list are
    not probed, the end of the registration is not logged and the callback
    of [init] is not called. *)
Theorem failing_load_ends_startup
  (env : Env) (a b : list value) (ms1 ms2 : list jsstring) (m : jsstring)
  (e : value) :
  DB_init env = CallsBack a ->
  Modules_init env = CallsBack b ->
  Modules_getAvailableModules env = ms1 ++ m :: ms2 ->
  loads_cleanly env ms1 ->
  fs_existsSync env (restFile env m) = true ->
  require_file env (restFile env m) = Some e ->
  init env [] =
    (Throw (Thrown e),
     [RequireGlobals; OnUncaughtException; DBInit; ModulesInit; SetUpServer;
      NewRouter; RouterUseAuthorization; AppUse (js "/api/:apidomain/:course");
      GetAvailableModules]
     ++ flat_map (probe env) ms1
     ++ [ExistsSync (restFile env m); LogDebug m; Require (restFile env m)]).
Proof.
  intros Hdb Hmod Hms Hclean Hexists Hraise.
  rewrite init_stages, Hdb, Hmod.
  unfold initializeServer, initializeAuthorizationMiddleware, bind, emit,
    modify.
  rewrite Hms, each_app, each_register_rest by assumption.
  cbn [each]. unfold bind.
  rewrite (register_rest_raises env m e _ Hexists Hraise).
  rewrite <- !app_assoc. reflexivity.
Qed.

Lemma failing_load_ends_startup_witness :
  init broken_module [] =
    (Throw (Thrown (VString (js "SyntaxError"))),
     [RequireGlobals; OnUncaughtException; DBInit; ModulesInit; SetUpServer;
      NewRouter; RouterUseAuthorization; AppUse (js "/api/:apidomain/:course");
      GetAvailableModules]
     ++ flat_map (probe broken_module) []
     ++ [ExistsSync (restFile broken_module (js "lrs-users"));
         LogDebug (js "lrs-users");
         Require (restFile broken_module (js "lrs-users"))]).
Proof.
  apply (failing_load_ends_startup broken_module [] [] [] [js "lrs-core"]
           (js "lrs-users") (VString (js "SyntaxError"))).
  - reflexivity.
  - reflexivity.
  - reflexivity.
  - intros m Hm. now apply elem_of_nil in Hm.
  - vm_compute. reflexivity.
  - reflexivity.
Defined.

(** X12. The callback of [init] is called exactly when [DB.init] and
    [Modules.init] both call back and every rest.js that exists loads
    without throwing. When a collaborator never calls back, [init] returns
    and its callback is never called. *)
Theorem callback_when_all_stages_succeed (env : Env) :
  Callback ∈ snd (init env []) <->
  (exists a, DB_init env = CallsBack a)
  /\ (exists b, Modules_init env = CallsBack b)
  /\ loads_cleanly env (Modules_getAvailableModules env).
Proof.
  rewrite init_stages. split.
  - destruct (DB_init env) as [a| |e]; cbv beta iota; cbn [snd];
      [|intros H; step_excluded H..].
    destruct (Modules_init env) as [b| |e]; cbv beta iota; cbn [snd];
      [|intros H; step_excluded H..].
    pose proof (initializeServer_returns_inv env
      [RequireGlobals; OnUncaughtException; DBInit; ModulesInit]) as Hinv.
    pose proof (initializeServer_no_callback env
      [RequireGlobals; OnUncaughtException; DBInit; ModulesInit]) as Hno.
    destruct (initializeServer env _) as [[[]|e] log]; cbn [fst snd] in *.
    + intros _. repeat split; eauto.
    + intros Hin. exfalso. revert Hin. apply Hno. step_not_listed.
  - intros ([a ->] & [b ->] & Hclean).
    rewrite initializeServer_returns by assumption. cbn [snd].
    rewrite !elem_of_app, !elem_of_cons. tauto.
Qed.

Lemma callback_when_all_stages_succeed_witness :
  Callback ∈ snd (init installation []).
Proof.
  apply (proj2 (callback_when_all_stages_succeed installation)).
  split; [now exists []|]. split; [now exists []|].
  intros m _ _. reflexivity.
Defined.

(** X13. [Modules.init] is called exactly when [DB.init] calls back, and
    the server is set up, with the authorization middleware registered on
    the API router, exactly when [Modules.init] calls back as well: a
    collaborator that throws or stays silent keeps every later stage from
    running. *)
Theorem stages_wait_for_callbacks (env : Env) :
  (ModulesInit ∈ snd (init env []) <-> exists a, DB_init env = CallsBack a)
  /\ (SetUpServer ∈ snd (init env []) <->
      (exists a, DB_init env = CallsBack a)
      /\ (exists b, Modules_init env = CallsBack b))
  /\ (RouterUseAuthorization ∈ snd (init env []) <->
      (exists a, DB_init env = CallsBack a)
      /\ (exists b, Modules_init env = CallsBack b)).
Proof.
  rewrite init_stages.
  destruct (initializeServer_starts env
    [RequireGlobals; OnUncaughtException; DBInit; ModulesInit])
    as [rest Hrest].
  assert (Hlog : forall s,
    s ∈ [RequireGlobals; OnUncaughtException; DBInit; ModulesInit;
         SetUpServer; NewRouter; RouterUseAuthorization] ->
    s ∈ snd (match initializeServer env
                     [RequireGlobals; OnUncaughtException; DBInit; ModulesInit]
             with
             | (Ok _, log) => (Ok tt, log ++ [Callback])
             | (Throw e, log) => (Throw e, log)
             end)).
  { intros s Hs. rewrite !elem_of_cons in Hs.
    destruct (initializeServer env _) as [[[]|e] log];
      cbn [snd] in *; subst log;
      rewrite !elem_of_app, !elem_of_cons; tauto. }
  destruct (DB_init env) as [a| |e]; cbv beta iota; cbn [snd].
  2,3: split; [|split];
       (split; [intros H; step_excluded H|firstorder congruence]).
  destruct (Modules_init env) as [b| |e]; cbv beta iota; cbn [snd].
  2,3: split; [|split];
       [split; [eauto|intros _; step_listed]
       |split; [intros H; step_excluded H|firstorder congruence]..].
  split; [|split];
    (split; [intros _; eauto|intros _; apply Hlog; step_listed]).
Qed.

Lemma stages_wait_for_callbacks_witness :
  SetUpServer ∈ snd (init installation []).
Proof.
  apply (proj2 (proj1 (proj2 (stages_wait_for_callbacks installation)))).
  split; now exists [].
Defined.

(** ** The cookie name decodes back *)

(** From here on [lia] also settles divisions and remainders by a
    constant. *)
Ltac Zify.zify_post_hook ::= Z.to_euclidean_division_equations.

Lemma hexDigit_hexUpper (d : N) :
  d < 16 -> URI.hexDigit (URI.hexUpper d) = Some d.
Proof.
  intros Hd.
  assert (H : d = 0 \/ d = 1 \/ d = 2 \/ d = 3 \/ d = 4 \/ d = 5 \/ d = 6
              \/ d = 7 \/ d = 8 \/ d = 9 \/ d = 10 \/ d = 11 \/ d = 12
              \/ d = 13 \/ d = 14 \/ d = 15) by lia.
  repeat destruct H as [->|H]; try subst d; reflexivity.
Qed.

Lemma ParseHexOctet_percent (b : N) (rest : jsstring) :
  b < 256 ->
  URI.ParseHexOctet (URI.hexUpper (b / 16) :: URI.hexUpper (b mod 16) :: rest)
  = Some (b, rest).
Proof.
  intros Hb. unfold URI.ParseHexOctet.
  rewrite !hexDigit_hexUpper by lia.
  do 2 f_equal. lia.
Qed.

Lemma continuation_percent (bs : list N) (rest : jsstring) :
  Forall (fun b => b < 256) bs ->
  URI.continuation (length bs) (URI.percent bs ++ rest) = Some bs.
Proof.
  induction 1 as [|b bs Hb _ IH]; [reflexivity|].
  cbn [length URI.continuation URI.percent flat_map app].
  rewrite ParseHexOctet_percent by assumption.
  unfold URI.percent in IH. now rewrite IH.
Qed.

(** Settle the comparisons of the goal that arithmetic decides. *)
Ltac decide_comparisons :=
  repeat match goal with
         | |- context [?a <=? ?b] =>
             first [ rewrite (proj2 (N.leb_le a b)) by lia
                   | rewrite (proj2 (N.leb_gt a b)) by lia ]
         | |- context [?a <? ?b] =>
             first [ rewrite (proj2 (N.ltb_lt a b)) by lia
                   | rewrite (proj2 (N.ltb_ge a b)) by lia ]
         end.

Lemma utf8_round_trip (cp : N) :
  scalar cp -> 128 <= cp ->
  URI.sequence_length (hd 0 (URI.utf8_encode cp))
    = Some (length (URI.utf8_encode cp))
  /\ URI.utf8_decode (URI.utf8_encode cp) = Some cp
  /\ 128 <= hd 0 (URI.utf8_encode cp).
Proof.
  intros [Hmax Hsur] Hmin. unfold URI.utf8_encode.
  destruct (N.ltb_spec cp 128); [lia|].
  destruct (N.ltb_spec cp 2048); [|destruct (N.ltb_spec cp 65536)];
    cbn [hd length]; unfold URI.sequence_length, URI.utf8_decode,
      URI.between; cbn [forallb].
  - assert (H192 : 192 <= 192 + cp / 64 <= 223) by lia.
    replace (_ * 64 + _) with cp by lia.
    decide_comparisons. repeat split. lia.
  - assert (H224 : 224 <= 224 + cp / 4096 <= 239) by lia.
    replace (_ * 4096 + _ * 64 + _) with cp by lia.
    decide_comparisons. cbn [andb negb].
    split; [reflexivity|]. split; [|lia].
    destruct (N.leb_spec 55296 cp); [|reflexivity].
    rewrite (proj2 (N.leb_gt _ _)) by lia. reflexivity.
  - assert (H240 : 240 <= 240 + cp / 262144 <= 244) by lia.
    replace (_ * 262144 + _ * 4096 + _ * 64 + _) with cp by lia.
    decide_comparisons. repeat split. lia.
Qed.

Lemma length_percent (bs : list N) :
  length (URI.percent bs) = (3 * length bs)%nat.
Proof.
  induction bs as [|b bs IH]; [reflexivity|].
  cbn [URI.percent flat_map app length]. unfold URI.percent in IH. lia.
Qed.

(** The escapes of a scalar value, read after the first [%]. *)
Lemma decode_escape_percent (cp : N) (rest : jsstring) :
  scalar cp ->
  exists b0 bs,
    URI.utf8_encode cp = b0 :: bs
    /\ URI.decode_escape
         (URI.hexUpper (b0 / 16) :: URI.hexUpper (b0 mod 16)
          :: URI.percent bs ++ rest)
       = Ok (URI.UTF16EncodeCodePoint cp, (2 + 3 * length bs)%nat).
Proof.
  intros Hcp. pose proof (utf8_encode_octets cp (proj1 Hcp)) as Hoct.
  destruct (N.ltb_spec cp 128) as [Hlt|Hge].
  - exists cp, []. unfold URI.utf8_encode, URI.decode_escape.
    rewrite (proj2 (N.ltb_lt cp 128)) by assumption. split; [reflexivity|].
    rewrite ParseHexOctet_percent by lia.
    rewrite (proj2 (N.ltb_lt cp 128)) by assumption.
    unfold URI.UTF16EncodeCodePoint.
    now rewrite (proj2 (N.leb_le cp 65535)) by lia.
  - destruct (utf8_round_trip cp Hcp Hge) as (Hlen & Hdec & Hhd).
    destruct (URI.utf8_encode cp) as [|b0 bs]; [discriminate Hlen|].
    exists b0, bs. split; [reflexivity|].
    apply Forall_cons in Hoct as [Hb0 Hbs]. cbn [hd length] in *.
    unfold URI.decode_escape.
    rewrite ParseHexOctet_percent by assumption.
    rewrite (proj2 (N.ltb_ge b0 128)) by assumption.
    rewrite Hlen.
    replace (S (length bs) - 1)%nat with (length bs) by lia.
    rewrite continuation_percent by assumption.
    now rewrite Hdec.
Qed.

Lemma Decode_skip (p rest : jsstring) :
  URI.Decode (length p) (p ++ rest) = URI.Decode 0 rest.
Proof.
  induction p as [|c p IH]; [reflexivity|exact IH].
Qed.

Lemma Decode_at_percent (s : jsstring) :
  URI.Decode 0 (37 :: s) =
    (try! d := URI.decode_escape s in
     try! r := URI.Decode (snd d) s in
     Ok (fst d ++ r)).
Proof. reflexivity. Qed.

Lemma Decode_percent (cp : N) (rest : jsstring) :
  scalar cp ->
  URI.Decode 0 (URI.percent (URI.utf8_encode cp) ++ rest) =
    (try! r := URI.Decode 0 rest in Ok (URI.UTF16EncodeCodePoint cp ++ r)).
Proof.
  intros Hcp.
  destruct (decode_escape_percent cp rest Hcp) as (b0 & bs & -> & Hesc).
  cbn [URI.percent flat_map app]. fold (URI.percent bs).
  rewrite Decode_at_percent, Hesc. cbn [result_bind fst snd].
  replace (2 + 3 * length bs)%nat
    with (length (URI.hexUpper (b0 / 16) :: URI.hexUpper (b0 mod 16)
                  :: URI.percent bs))
    by (cbn [length]; rewrite length_percent; lia).
  change (URI.hexUpper (b0 / 16) :: URI.hexUpper (b0 mod 16)
          :: URI.percent bs ++ rest)
    with ((URI.hexUpper (b0 / 16) :: URI.hexUpper (b0 mod 16)
           :: URI.percent bs) ++ rest).
  now rewrite Decode_skip.
Qed.

(** Decoding undoes encoding. *)
Lemma Encode_Decode (s : jsstring) :
  code_units s ->
  forall r, URI.Encode s = Ok r -> URI.Decode 0 r = Ok s.
Proof.
  induction s as [|c s IH1 IH2] using list_ind_two; intros Hs r; cbn.
  { now intros [= <-]. }
  apply Forall_cons in Hs as [Hc Hs].
  destruct (URI.unescaped c) eqn:Hu.
  { destruct (URI.Encode s) as [r'|] eqn:Hr; cbn; [|discriminate].
    intros [= <-]. cbn.
    destruct (N.eqb_spec c 37) as [->|_]; [discriminate Hu|].
    now rewrite (IH1 Hs r' eq_refl). }
  unfold URI.between.
  destruct (N.leb_spec 55296 c) as [Hlo|Hlo];
    [destruct (N.leb_spec c 56319) as [Hhi|Hhi]|]; cbn [andb].
  - destruct s as [|c2 s']; [discriminate|].
    destruct (N.leb_spec 56320 c2) as [Hlo2|]; [|discriminate].
    destruct (N.leb_spec c2 57343) as [Hhi2|]; [|discriminate].
    cbn [andb].
    destruct (URI.Encode s') as [r'|] eqn:Hr; cbn; [|discriminate].
    intros [= <-]. apply Forall_cons in Hs as [_ Hs'].
    rewrite Decode_percent by (unfold scalar; lia).
    rewrite (IH2 c2 s' eq_refl Hs' r' Hr). cbn.
    unfold URI.UTF16EncodeCodePoint.
    rewrite (proj2 (N.leb_gt _ _)) by lia.
    set (cp := (c - 55296) * 1024 + (c2 - 56320) + 65536).
    replace ((cp - 65536) / 1024 + 55296) with c by (subst cp; lia).
    replace ((cp - 65536) mod 1024 + 56320) with c2 by (subst cp; lia).
    reflexivity.
  - rewrite (proj2 (N.leb_le 56320 c)) by lia.
    destruct (N.leb_spec c 57343); [discriminate|]. cbn [andb].
    destruct (URI.Encode s) as [r'|] eqn:Hr; cbn; [|discriminate].
    intros [= <-]. rewrite Decode_percent by (unfold scalar; lia).
    rewrite (IH1 Hs r' eq_refl). cbn.
    unfold URI.UTF16EncodeCodePoint.
    now rewrite (proj2 (N.leb_le _ _)) by lia.
  - rewrite (proj2 (N.leb_gt 56320 c)) by lia. cbn [andb].
    destruct (URI.Encode s) as [r'|] eqn:Hr; cbn; [|discriminate].
    intros [= <-]. rewrite Decode_percent by (unfold scalar; lia).
    rewrite (IH1 Hs r' eq_refl). cbn.
    unfold URI.UTF16EncodeCodePoint.
    now rewrite (proj2 (N.leb_le _ _)) by lia.
Qed.

Lemma code_units_check (s : jsstring) :
  forallb (fun c => c <? 65536) s = true -> code_units s.
Proof.
  intros H. apply Forall_forall. intros c Hc.
  apply list_elem_of_In in Hc.
  now apply N.ltb_lt, (proj1 (forallb_forall _ _) H).
Qed.

(** The string the handler encodes is a string of code units. *)
Lemma composite_code_units (url d c : jsstring) :
  code_units url ->
  URI.decodeURIComponent (ToString (split 47 url !! 2%nat)) = Ok d ->
  URI.decodeURIComponent (ToString (split 47 url !! 3%nat)) = Ok c ->
  code_units (d ++ js "_" ++ c).
Proof.
  intros Hurl Hd Hc. apply Forall_app. split.
  - eapply Decode_code_units, Hd. now apply segment_code_units.
  - apply Forall_app. split; [repeat constructor|].
    eapply Decode_code_units, Hc. now apply segment_code_units.
Qed.

(** X14. A cookie name decodes back to what was encoded: for every URL
    whose name [k] is computed, [decodeURIComponent(k)] is the decoded
    domain, an underscore and the decoded course. *)
Theorem cookie_name_decodes_back (url k : jsstring) :
  code_units url ->
  cookieName url = Ok k ->
  exists apiDomain courseId,
    URI.decodeURIComponent (ToString (split 47 url !! 2%nat)) = Ok apiDomain
    /\ URI.decodeURIComponent (ToString (split 47 url !! 3%nat)) = Ok courseId
    /\ URI.decodeURIComponent k = Ok (apiDomain ++ js "_" ++ courseId).
Proof.
  intros Hurl. unfold cookieName.
  destruct (URI.decodeURIComponent (ToString (split 47 url !! 2%nat)))
    as [d|] eqn:Hd; cbn; [|discriminate].
  destruct (URI.decodeURIComponent (ToString (split 47 url !! 3%nat)))
    as [c|] eqn:Hc; cbn; [|discriminate].
  intros Hk. exists d, c. repeat split.
  apply Encode_Decode; [|exact Hk].
  now apply (composite_code_units url).
Qed.

Lemma cookie_name_decodes_back_witness :
  exists apiDomain courseId,
    URI.decodeURIComponent
      (ToString (split 47 (js "/api/a%2Fb/c%20d") !! 2%nat)) = Ok apiDomain
    /\ URI.decodeURIComponent
         (ToString (split 47 (js "/api/a%2Fb/c%20d") !! 3%nat)) = Ok courseId
    /\ URI.decodeURIComponent (js "a%2Fb_c%20d")
       = Ok (apiDomain ++ js "_" ++ courseId).
Proof.
  apply (cookie_name_decodes_back (js "/api/a%2Fb/c%20d") (js "a%2Fb_c%20d")).
  - apply code_units_check. reflexivity.
  - vm_compute. reflexivity.
Defined.

(** X15. Two URLs have the same cookie name exactly when the strings
    "domain_course" made of their decoded segments are the same: however
    the segments are escaped, a cookie serves the requests of one such
    string and of no other. *)
Theorem same_name_same_composite
  (url1 url2 d1 c1 d2 c2 k : jsstring) :
  code_units url1 ->
  code_units url2 ->
  URI.decodeURIComponent (ToString (split 47 url1 !! 2%nat)) = Ok d1 ->
  URI.decodeURIComponent (ToString (split 47 url1 !! 3%nat)) = Ok c1 ->
  URI.decodeURIComponent (ToString (split 47 url2 !! 2%nat)) = Ok d2 ->
  URI.decodeURIComponent (ToString (split 47 url2 !! 3%nat)) = Ok c2 ->
  cookieName url1 = Ok k ->
  (cookieName url2 = Ok k <-> d1 ++ js "_" ++ c1 = d2 ++ js "_" ++ c2).
Proof.
  intros Hurl1 Hurl2 Hd1 Hc1 Hd2 Hc2.
  unfold cookieName. rewrite Hd1, Hc1, Hd2, Hc2. cbn.
  intros Hk1. split.
  - intros Hk2.
    apply (Encode_Decode _ (composite_code_units _ _ _ Hurl1 Hd1 Hc1)) in Hk1.
    apply (Encode_Decode _ (composite_code_units _ _ _ Hurl2 Hd2 Hc2)) in Hk2.
    congruence.
  - intros <-. exact Hk1.
Qed.

Lemma same_name_same_composite_witness :
  cookieName (js "/api/a%5Fb/c") = Ok (js "a_b_c")
  <-> js "a_b" ++ js "_" ++ js "c" = js "a" ++ js "_" ++ js "b_c".
Proof.
  apply (same_name_same_composite (js "/api/a/b_c") (js "/api/a%5Fb/c")
           (js "a") (js "b_c") (js "a_b") (js "c") (js "a_b_c"));
    try (apply code_units_check; reflexivity); vm_compute; reflexivity.
Defined.
